(** * A shallow embedding of the HTTP / OSC / MIDI bridge scripts

    The three scripts [http_server.py], [osc_io.py] and [midi_io.py] are
    embedded function by function.  Python exceptions are carried by a small
    error monad, host and driver calls are parameters of the functions that
    make them, and every effect that a property talks about (filesystem
    calls, UDP datagrams, MIDI output, browser events) is returned as an
    explicit trace. *)

From Stdlib Require Import ZArith List String Ascii Bool Lia PrimFloat.
From stdpp Require Import base option list strings gmap pretty.

Open Scope string_scope.

(** ** Python exceptions and a small error monad *)

Inductive exn : Type :=
  | TypeError
  | AttributeError
  | ValueError
  | IndexError
  | OSError
  | HostError.

Inductive exc (A : Type) : Type :=
  | Ret (a : A)
  | Raise (e : exn).
Arguments Ret {A} a.
Arguments Raise {A} e.

Definition exc_bind {A B : Type} (m : exc A) (k : A → exc B) : exc B :=
  match m with
  | Ret a => k a
  | Raise e => Raise e
  end.

Notation "'let*' x ':=' m 'in' k" := (exc_bind m (fun x => k))
  (at level 10, x pattern, m at level 100, k at level 200).

(** [try: m except k] is [try: m  except Exception as e: k e]. *)
Definition try_except {A : Type} (m : exc A) (handler : exn → A) : A :=
  match m with
  | Ret a => a
  | Raise e => handler e
  end.

Definition returns {A : Type} (m : exc A) : Prop := ∃ a, m = Ret a.

(** ** JSON values as [json.loads] produces them

    A number is a Python [int] or a [float] (a binary64 value); an object
    is its list of members, in order, and [dict.get] reads the first member
    with the key. *)

#[warnings="-register-all"]
Inductive json : Type :=
  | JNull
  | JBool (b : bool)
  | JInt (z : Z)
  | JFloat (f : float)
  | JStr (s : string)
  | JArr (items : list json)
  | JObj (members : list (string * json)).

(** Python truth value ([not x] is its negation). *)
Definition truthy (j : json) : bool :=
  match j with
  | JNull => false
  | JBool b => b
  | JInt z => negb (z =? 0)%Z
  | JFloat f => negb (PrimFloat.eqb f 0%float)
  | JStr s => negb (String.eqb s "")
  | JArr items => match items with [] => false | _ => true end
  | JObj members => match members with [] => false | _ => true end
  end.

Definition str_truthy (s : string) : bool := negb (String.eqb s "").

Fixpoint assoc_get {V : Type} (k : string) (kv : list (string * V)) : option V :=
  match kv with
  | [] => None
  | (k', v) :: rest => if String.eqb k k' then Some v else assoc_get k rest
  end.

(** [body.get(k)]: an object answers with the member or [None]; no other
    JSON value has a [get] attribute. *)
Definition py_get (j : json) (k : string) : exc json :=
  match j with
  | JObj members => Ret (default JNull (assoc_get k members))
  | _ => Raise AttributeError
  end.

Definition py_get_default (j : json) (k : string) (d : json) : exc json :=
  match j with
  | JObj members => Ret (default d (assoc_get k members))
  | _ => Raise AttributeError
  end.

(** [s == j] for a Python [str] [s] and a decoded JSON value [j]. *)
Definition str_eq_json (s : string) (j : json) : bool :=
  match j with
  | JStr t => String.eqb s t
  | _ => false
  end.

(** ** String operations of the Python [str] type *)

(** [s.startswith(p)] *)
Definition startswith (s p : string) : bool := String.prefix p s.

(** [s.endswith(suf)] *)
Definition endswith (s suf : string) : bool :=
  let n := String.length s in
  let m := String.length suf in
  if (m <=? n)%nat then String.eqb (String.substring (n - m) m s) suf else false.

(** [s.replace(" ", "")] *)
Fixpoint remove_spaces (s : string) : string :=
  match s with
  | EmptyString => EmptyString
  | String c rest =>
      if Ascii.eqb c " "%char then remove_spaces rest
      else String c (remove_spaces rest)
  end.

(** [k in s] for two strings: [k] occurs in [s] as a substring. *)
Fixpoint str_contains (s k : string) : bool :=
  String.prefix k s ||
  match s with
  | EmptyString => false
  | String _ rest => str_contains rest k
  end.

(** ** Host settings ([obs_data])

    A settings object holds typed items under string keys; reading an item
    that is absent, or of the other type, yields the type's zero value. *)

Module Host.

Inductive item : Type :=
  | IStr (s : string)
  | IInt (z : Z).

Abbreviation settings := (gmap string item).

Definition obs_data_get_string (st : settings) (key : string) : string :=
  match st !! key with
  | Some (IStr s) => s
  | _ => ""
  end.

Definition obs_data_get_int (st : settings) (key : string) : Z :=
  match st !! key with
  | Some (IInt z) => z
  | _ => 0%Z
  end.

Definition obs_data_set_string (st : settings) (key val : string) : settings :=
  <[key := IStr val]> st.

(** The f-string [f"{name}{i}"]. *)
Definition fkey (name : string) (i : nat) : string := name +:+ pretty i.

(** An event handed to a browser source: the [javascript_event] procedure
    call with its [eventName] and [jsonString] call data. *)
Record js_event : Type := JsEvent {
  js_target : string;
  js_eventName : string;
  js_jsonString : string
}.

(** What happens to a listening socket of a script. *)
Inductive socket_event : Type :=
  | Bind (ip : string) (port : Z)
  | Close (ip : string) (port : Z).

End Host.

(** ** osc_io.py *)

Module OSC.
Import Host.

(** A [SimpleUDPClient]: the socket's destination. *)
Record udp_client : Type := UdpClient { udp_ip : string; udp_port : Z }.

Record OSCClient : Type := MkOSCClient {
  ip : string;
  port : Z;
  browser_source : string;
  osc_address : string;
  event_name : string;
  _udp_client : option udp_client
}.

(** One datagram handed to the UDP socket. *)
Record datagram : Type := Datagram {
  dg_to : udp_client;
  dg_address : json;
  dg_arguments : json
}.

(** [OSCClient.to_dict] keeps these five entries; the bridge only reads
    ["event_name"]. *)
Record client_dict : Type := ClientDict {
  cd_client_ip : string;
  cd_client_port : Z;
  cd_browser_source_name : string;
  cd_osc_address : string;
  cd_event_name : string
}.

Definition to_dict (c : OSCClient) : client_dict :=
  {| cd_client_ip := ip c;
     cd_client_port := port c;
     cd_browser_source_name := browser_source c;
     cd_osc_address := osc_address c;
     cd_event_name := event_name c |}.

(** [OSCClient.matches] *)
Definition matches (c : OSCClient) (address : string) : bool :=
  if negb (str_truthy (osc_address c)) then true
  else startswith address (osc_address c).

Section Transport.
(** [udp_send_ok sock address arguments] tells whether
    [SimpleUDPClient.send_message] returns ([true]) or raises. *)
Variable udp_send_ok : udp_client → json → json → bool.

(** [OSCClient.send]: returns nothing; the result is the list of
    datagrams that left through the socket. *)
Definition send (c : OSCClient) (address arguments : json) : list datagram :=
  match _udp_client c with
  | Some sock =>
      if udp_send_ok sock address arguments
      then [Datagram sock address arguments]
      else []   (* except Exception: logged *)
  | None => []
  end.

(** [next((c for c in clients if c.event_name == name), None)] *)
Fixpoint find_client (clients : list OSCClient) (name : string) : option OSCClient :=
  match clients with
  | [] => None
  | c :: rest => if String.eqb (event_name c) name then Some c else find_client rest name
  end.

(** [OSCManager._bridge_send] on the manager's client list. *)
Definition _bridge_send (clients : list OSCClient) (client : client_dict)
    (address arguments : json) : list datagram :=
  match find_client clients (cd_event_name client) with
  | Some target => send target address arguments
  | None => []
  end.
End Transport.

Section Receive.
(** The type of decoded OSC arguments, [json.dumps] of the event
    payload ([None] when an argument is not serializable and [dumps]
    raises [TypeError]), and the host's source table. *)
Variable arg : Type.
Variable dumps_event : string → list arg → option string.
Variable source_exists : string → bool.

(** [OSCManager._dispatch_to_obs] *)
Definition _dispatch_to_obs (client : OSCClient) (address : string) (args : list arg)
    : exc (list js_event) :=
  if source_exists (browser_source client) then
    match dumps_event address args with
    | Some json_string =>
        Ret [JsEvent (browser_source client) (event_name client) json_string]
    | None => Raise TypeError
    end
  else Ret [].

(** The loop of [OSCManager._on_osc_received]; the result pairs the
    clients handed to [_dispatch_to_obs], in order, with what the calls
    gave: the events the host received, or the exception that left the
    callback. *)
Fixpoint _on_osc_received (clients : list OSCClient) (address : string) (args : list arg)
    : list OSCClient * exc (list js_event) :=
  match clients with
  | [] => ([], Ret [])
  | client :: rest =>
      if matches client address
      then ([client], _dispatch_to_obs client address args)      (* break *)
      else _on_osc_received rest address args
  end.
End Receive.

(** [OSCClient.__init__]: [socket_ok] tells whether creating the UDP
    client succeeded. *)
Definition new_client (st : settings) (index : nat) (socket_ok : bool) : OSCClient :=
  let ip := obs_data_get_string st (fkey "client_ip_" index) in
  let port := obs_data_get_int st (fkey "client_port_" index) in
  let ev := obs_data_get_string st (fkey "event_name_" index) in
  {| ip := ip;
     port := port;
     browser_source := obs_data_get_string st (fkey "browser_source_name_" index);
     osc_address := obs_data_get_string st (fkey "osc_address_" index);
     event_name := if str_truthy ev then ev else fkey "osc_event_" index;
     _udp_client := if str_truthy ip && negb (port =? 0)%Z && socket_ok
                    then Some (UdpClient ip port) else None |}.

(** The bridge object published as [obs.osc_manager]: the snapshot of
    client dictionaries; its ["send"] entry is [_bridge_send] of the
    manager that published it. *)
Record bridge : Type := Bridge { clients : list client_dict }.

(** [OSCManager.update_settings]: the rebuilt client list and the bridge. *)
Definition update_settings (st : settings) (socket_ok : nat → bool)
    : list OSCClient * bridge :=
  let count := Z.to_nat (obs_data_get_int st "number_of_clients") in
  let cs := map (fun i => new_client st i (socket_ok i)) (seq 0 count) in
  (cs, Bridge (map to_dict cs)).

(** *** The listener and the script callbacks *)

(** The [OSCManager] object: its client list, the UDP server it has bound
    (the address), whether it holds a thread object, and [is_running]. *)
Record manager : Type := Manager {
  m_clients : list OSCClient;
  server : option (string * Z);
  server_thread : bool;
  is_running : bool
}.

(** The module's [MANAGER] and the [obs.osc_manager] attribute. *)
Record osc_world : Type := OscWorld {
  MANAGER : manager;
  published : option bridge
}.

Definition initial_world : osc_world :=
  OscWorld (Manager [] None false false) None.

Section Listener.
Variable bind_ok : string → Z → bool.
Variable socket_ok : nat → bool.

(** [OSCManager.stop_server] *)
Definition stop_server (m : manager) : manager * list socket_event :=
  let closed := match server m with
                | Some (ip, port) => [Close ip port]
                | None => []
                end in
  (Manager (m_clients m) None false false, closed).

(** [OSCManager.start_server]: creating the UDP server raises when the
    address cannot be bound; the exception is logged. *)
Definition start_server (ip : string) (port : Z) (m : manager) : manager * list socket_event :=
  let '(m1, closed) := stop_server m in
  if bind_ok ip port
  then (Manager (m_clients m1) (Some (ip, port)) true true, (closed ++ [Bind ip port])%list)
  else (m1, closed).

(** [script_update]: [MANAGER.update_settings(settings)]. *)
Definition script_update (st : settings) (w : osc_world) : osc_world :=
  let '(cs, b) := update_settings st socket_ok in
  let m := MANAGER w in
  OscWorld (Manager cs (server m) (server_thread m) (is_running m)) (Some b).

(** [script_load] *)
Definition script_load (st : settings) (w : osc_world) : osc_world * list socket_event :=
  let w1 := script_update st w in
  let ip := obs_data_get_string st "server_ip" in
  let port := obs_data_get_int st "server_port" in
  if str_truthy ip && negb (port =? 0)%Z then
    let '(m, evs) := start_server ip port (MANAGER w1) in
    (OscWorld m (published w1), evs)
  else (w1, []).

(** [script_unload] *)
Definition script_unload (w : osc_world) : osc_world * list socket_event :=
  let '(m, evs) := stop_server (MANAGER w) in
  (OscWorld m None, evs).

(** The calls the host and the user make on the script. *)
Inductive call : Type :=
  | ScriptLoad (st : settings)
  | ScriptUpdate (st : settings)
  | RestartServer (ip : string) (port : Z)
  | ScriptUnload.

Definition run_call (c : call) (w : osc_world) : osc_world * list socket_event :=
  match c with
  | ScriptLoad st => script_load st w
  | ScriptUpdate st => (script_update st w, [])
  | RestartServer ip port =>
      let '(m, evs) := start_server ip port (MANAGER w) in
      (OscWorld m (published w), evs)
  | ScriptUnload => script_unload w
  end.

Fixpoint run_calls (cs : list call) (w : osc_world) : osc_world * list socket_event :=
  match cs with
  | [] => (w, [])
  | c :: rest =>
      let '(w1, evs1) := run_call c w in
      let '(w2, evs2) := run_calls rest w1 in
      (w2, (evs1 ++ evs2)%list)
  end.
End Listener.

End OSC.

(** ** midi_io.py *)

Module MIDI.
Import Host.

(** An [rtmidi.MidiIn] / [rtmidi.MidiOut] object: the port it was asked to
    open and whether [open_port] returned. *)
Record midi_handle : Type := MidiHandle { port_index : nat; opened : bool }.

Record MidiDevice : Type := MkMidiDevice {
  device_name : string;
  port_name : option string;
  midi_in : option midi_handle;
  midi_out : option midi_handle;
  browser_source_name : string;
  event_name : string
}.

(** [MidiDevice.__init__] *)
Definition new_device (name : string) : MidiDevice :=
  {| device_name := name; port_name := None; midi_in := None; midi_out := None;
     browser_source_name := ""; event_name := "" |}.

(** The module's globals, the script's settings object and whether
    [obs.midi_manager] is set. *)
Record world : Type := World {
  midi_devices : list MidiDevice;
  midi_ports_in : list string;
  num_devices : option nat;
  script_settings : settings;
  midi_manager : bool
}.

Definition initial (st : settings) : world :=
  {| midi_devices := []; midi_ports_in := []; num_devices := None;
     script_settings := st; midi_manager := false |}.

Definition set_devices (w : world) (ds : list MidiDevice) : world :=
  {| midi_devices := ds; midi_ports_in := midi_ports_in w; num_devices := num_devices w;
     script_settings := script_settings w; midi_manager := midi_manager w |}.

Definition set_settings (w : world) (st : settings) : world :=
  {| midi_devices := midi_devices w; midi_ports_in := midi_ports_in w;
     num_devices := num_devices w; script_settings := st; midi_manager := midi_manager w |}.

Definition set_ports (w : world) (ports : list string) : world :=
  {| midi_devices := midi_devices w; midi_ports_in := ports;
     num_devices := Some (length ports); script_settings := script_settings w;
     midi_manager := midi_manager w |}.

Definition register_manager (w : world) : world :=
  {| midi_devices := midi_devices w; midi_ports_in := midi_ports_in w;
     num_devices := num_devices w; script_settings := script_settings w;
     midi_manager := true |}.

(** [x in l] for a list of strings. *)
Definition str_in (x : string) (l : list string) : bool := existsb (String.eqb x) l.

(** [l.index(x)]; [None] stands for [ValueError]. *)
Fixpoint list_index (l : list string) (x : string) : option nat :=
  match l with
  | [] => None
  | y :: rest => if String.eqb y x then Some 0%nat else S <$> list_index rest x
  end.

(** The device built for index [i] when its saved port name is found. *)
Definition loaded_device (st : settings) (i : nat) (name : string) : MidiDevice :=
  let ev := obs_data_get_string st (fkey "event_name_" i) in
  {| device_name := "MIDI Device " +:+ pretty (i + 1)%nat;
     port_name := Some name;
     midi_in := None;
     midi_out := None;
     browser_source_name := obs_data_get_string st (fkey "browser_source_name_" i);
     event_name := if str_truthy ev then ev else fkey "midiDevice_" i |}.

(** The loop of [script_load] over the configured device indices.  The
    globals and the settings are mutated in place, so the world reached
    when [midi_devices[i]] raises is returned with the exception. *)
Fixpoint load_devices (idxs : list nat) (w : world) : world * exc unit :=
  match idxs with
  | [] => (w, Ret tt)
  | i :: rest =>
      let name := obs_data_get_string (script_settings w) (fkey "midi_port_name_" i) in
      if str_in name (midi_ports_in w) then
        let w' := set_devices w (midi_devices w ++ [loaded_device (script_settings w) i name]) in
        match midi_devices w' !! i with        (* print(midi_devices[i].port_name) *)
        | Some _ => load_devices rest w'
        | None => (w', Raise IndexError)
        end
      else
        load_devices rest
          (set_settings w (obs_data_set_string (script_settings w) (fkey "midi_port_name_" i) "---"))
  end.

Section Driver.
(** Whether [open_port] of an input / output object returns on a port,
    and whether [send_message] of an output object returns. *)
Variable open_in_ok : nat → bool.
Variable open_out_ok : nat → bool.
Variable send_message_ok : midi_handle → list Z → bool.
(** Whether [close_port] of an input / output object returns. *)
Variable close_in_ok : midi_handle → bool.
Variable close_out_ok : midi_handle → bool.

Definition with_handles (d : MidiDevice) (i o : option midi_handle) : MidiDevice :=
  {| device_name := device_name d; port_name := port_name d; midi_in := i; midi_out := o;
     browser_source_name := browser_source_name d; event_name := event_name d |}.

(** [start_midi_device] *)
Definition start_midi_device (ports : list string) (d : MidiDevice) : MidiDevice :=
  match port_name d with
  | None => d
  | Some name =>
      if negb (str_truthy name) then d
      else
        match list_index ports name with
        | None => d                                       (* except ValueError *)
        | Some idx =>
            if open_in_ok idx then
              if open_out_ok idx
              then with_handles d (Some (MidiHandle idx true)) (Some (MidiHandle idx true))
              else with_handles d (Some (MidiHandle idx true)) (Some (MidiHandle idx false))
            else with_handles d (Some (MidiHandle idx false)) (midi_out d)
        end
  end.

(** [stop_midi_device]: a handle is dropped once its port is closed; when
    [close_port] raises, the exception is printed and the handle stays. *)
Definition stop_midi_device (d : MidiDevice) : MidiDevice :=
  let after_close (close_ok : midi_handle → bool) (handle : option midi_handle) :=
    match handle with
    | Some h => if close_ok h then None else Some h
    | None => None
    end in
  with_handles d (after_close close_in_ok (midi_in d)) (after_close close_out_ok (midi_out d)).

Definition start_midi (w : world) : world :=
  set_devices w (map (start_midi_device (midi_ports_in w)) (midi_devices w)).

Definition stop_midi (w : world) : world :=
  set_devices w (map stop_midi_device (midi_devices w)).

(** [script_load]: [enumerated] is the result of [MidiIn().get_ports()]. *)
Definition script_load (st : settings) (enumerated : exc (list string)) (w0 : world)
    : world * exc unit :=
  let w1 := set_settings w0 st in
  let w2 := match enumerated with
            | Ret ports => set_ports w1 ports
            | Raise _ => w1
            end in
  let count := Z.to_nat (obs_data_get_int st "number_of_devices") in
  match load_devices (seq 0 count) w2 with
  | (w3, Ret _) => (start_midi (stop_midi (register_manager w3)), Ret tt)
  | (w3, Raise e) => (w3, Raise e)
  end.

(** *** Outbound bytes *)

Definition is_space (c : ascii) : bool :=
  let n := nat_of_ascii c in
  ((9 <=? n) && (n <=? 13) || (n =? 32))%nat.

Definition hex_digit (c : ascii) : option Z :=
  let n := Z.of_nat (nat_of_ascii c) in
  if ((48 <=? n) && (n <=? 57))%Z then Some (n - 48)%Z
  else if ((97 <=? n) && (n <=? 102))%Z then Some (n - 87)%Z
  else if ((65 <=? n) && (n <=? 70))%Z then Some (n - 55)%Z
  else None.

(** [bytearray.fromhex]: white space is skipped between bytes, each byte
    is two hexadecimal digits, anything else raises [ValueError]. *)
Fixpoint fromhex (s : string) : exc (list Z) :=
  match s with
  | EmptyString => Ret []
  | String c rest =>
      if is_space c then fromhex rest
      else
        match hex_digit c, rest with
        | Some top, String c2 rest2 =>
            match hex_digit c2 with
            | Some bot => let* bs := fromhex rest2 in Ret ((top * 16 + bot)%Z :: bs)
            | None => Raise ValueError
            end
        | _, _ => Raise ValueError
        end
  end.

(** One element of [bytearray(list)]: an integer (a [bool] is one) in
    [range(256)]. *)
Definition byte_of_json (j : json) : exc Z :=
  match j with
  | JInt z => if ((0 <=? z) && (z <? 256))%Z then Ret z else Raise ValueError
  | JBool b => Ret (if b then 1 else 0)%Z
  | _ => Raise TypeError
  end.

Fixpoint bytearray (items : list json) : exc (list Z) :=
  match items with
  | [] => Ret []
  | j :: rest =>
      let* b := byte_of_json j in
      let* bs := bytearray rest in
      Ret (b :: bs)
  end.

(** [next((d for d in midi_devices if d.event_name == event_name), None)] *)
Fixpoint find_device (devices : list MidiDevice) (name : json) : option MidiDevice :=
  match devices with
  | [] => None
  | d :: rest => if str_eq_json (event_name d) name then Some d else find_device rest name
  end.

(** What left through an output port. *)
Definition sent : Type := (midi_handle * list Z)%type.

(** [send_midi_api]: the returned flag and the messages transmitted. *)
Definition send_midi_api (devices : list MidiDevice) (name data : json) : bool * list sent :=
  match find_device devices name with
  | Some target_device =>
      match midi_out target_device with
      | Some out =>
          let message :=
            match data with
            | JStr s => Some (fromhex (remove_spaces s))
            | JArr items => Some (bytearray items)
            | _ => None                                   (* return False *)
            end in
          match message with
          | Some (Ret msg) =>
              if send_message_ok out msg then (true, [(out, msg)])
              else (false, [])                             (* except: printed *)
          | Some (Raise _) => (false, [])                  (* except: printed *)
          | None => (false, [])
          end
      | None => (false, [])
      end
  | None => (false, [])
  end.
End Driver.

Section Callback.
(** The host: which sources exist, [json.dumps], and whether building
    the call data and calling the source's procedure handler return
    ([true]) or raise. *)
Variable source_exists : string → bool.
Variable dumps : json → string.
Variable inject_ok : js_event → bool.

(** [seq[i]] on a Python list. *)
Definition py_index (l : list Z) (i : nat) : exc Z :=
  match l !! i with
  | Some x => Ret x
  | None => Raise IndexError
  end.

Record decoded : Type := Decoded { midi_status : Z; midi_note : Z; midi_velocity : Z }.

(** The first lines of [midi_input_callback]. *)
Definition decode (midi_data : list Z) : exc decoded :=
  let* st := py_index midi_data 0 in
  let* note := if (1 <? length midi_data)%nat then py_index midi_data 1 else Ret 0%Z in
  let* vel := if (2 <? length midi_data)%nat then py_index midi_data 2 else Ret 0%Z in
  Ret (Decoded st note vel).

Definition event_data (d : decoded) (midi_data : list Z) : json :=
  JObj [("status", JInt (midi_status d)); ("note", JInt (midi_note d));
        ("velocity", JInt (midi_velocity d)); ("data", JArr (map JInt midi_data))].

(** The outcome of one callback: the decoded triple that was printed,
    the events the browser source received, and whether the [except]
    branch printed an error. *)
Record callback_result : Type := CallbackResult {
  cb_decoded : decoded;
  cb_events : list js_event;
  cb_dropped : bool
}.

(** [midi_input_callback(device, message, time_stamp)]; [message] is the
    pair of the byte list and the delta time, of which only the bytes
    are read. *)
Definition midi_input_callback (device : MidiDevice) (midi_data : list Z)
    : exc callback_result :=
  let* d := decode midi_data in
  if str_truthy (browser_source_name device) then
    if source_exists (browser_source_name device) then
      let ev := JsEvent (browser_source_name device) (event_name device)
                        (dumps (event_data d midi_data)) in
      let attempt := if inject_ok ev then Ret [ev] else Raise HostError in
      Ret (try_except (let* evs := attempt in Ret (CallbackResult d evs false))
                      (fun _ => CallbackResult d [] true))
    else Ret (CallbackResult d [] false)
  else Ret (CallbackResult d [] false).
End Callback.

(** [script_unload]: [stop_midi()], then [del obs.midi_manager]. *)
Definition script_unload (close_in_ok close_out_ok : midi_handle → bool) (w : world)
    : world :=
  let w1 := stop_midi close_in_ok close_out_ok w in
  {| midi_devices := midi_devices w1; midi_ports_in := midi_ports_in w1;
     num_devices := num_devices w1; script_settings := script_settings w1;
     midi_manager := false |}.

End MIDI.

(** ** The [os.path] functions the server calls ([posixpath]) *)

Module PosixPath.

(** [s.split("/")] *)
Fixpoint split (s : string) : list string :=
  match s with
  | EmptyString => [""]
  | String c rest =>
      if Ascii.eqb c "/"%char then "" :: split rest
      else
        match split rest with
        | h :: t => String c h :: t
        | [] => [String c ""]
        end
  end.

(** ["/".join(comps)] *)
Fixpoint join_sep (comps : list string) : string :=
  match comps with
  | [] => ""
  | [c] => c
  | c :: rest => c +:+ "/" +:+ join_sep rest
  end.

(** [os.path.join(a, b)] *)
Definition join (a b : string) : string :=
  if startswith b "/" || negb (str_truthy a) then b
  else if endswith a "/" then a +:+ b
  else a +:+ "/" +:+ b.

Definition initial_slashes (path : string) : nat :=
  if startswith path "/" then
    if startswith path "//" && negb (startswith path "///") then 2 else 1
  else 0.

(** One turn of the loop of [normpath] over the components. *)
Definition norm_step (slashes : nat) (new_comps : list string) (comp : string) : list string :=
  if String.eqb comp "" || String.eqb comp "." then new_comps
  else if negb (String.eqb comp "..")
          || ((slashes =? 0)%nat && (length new_comps =? 0)%nat)
          || (negb (length new_comps =? 0)%nat && String.eqb (List.last new_comps "") "..")
       then new_comps ++ [comp]
  else if negb (length new_comps =? 0)%nat then removelast new_comps
  else new_comps.

(** [os.path.normpath(path)] *)
Definition normpath (path : string) : string :=
  if String.eqb path "" then "."
  else
    let slashes := initial_slashes path in
    let comps := fold_left (norm_step slashes) (split path) [] in
    let p := join_sep comps in
    let p := match slashes with
             | 0%nat => p
             | 1%nat => "/" +:+ p
             | _ => "//" +:+ p
             end in
    if String.eqb p "" then "." else p.

End PosixPath.

(** ** http_server.py *)

Module HTTP.
Import PosixPath.

(** The global [WSS_DETAILS]. *)
Record wss_details : Type := WssDetails { IP : string; PORT : Z; PW : json }.

Definition WSS_DETAILS_initial : wss_details :=
  {| IP := "localhost"; PORT := 4455; PW := JStr "" |}.

(** What opening and decoding the configuration file gives. *)
Inductive load_result : Type :=
  | LoadRaises (e : exn)          (* any exception but a decode error *)
  | LoadInvalid                   (* json.JSONDecodeError *)
  | Loaded (source_data : json).

(** The messages [update_wss_details] returns. *)
Inductive load_message : Type :=
  | FileNotFound                          (* "File not found or not selected." *)
  | MissingKeys (missing : list string)   (* f"Missing keys: {missing}" *)
  | LoadedSuccessfully                    (* "Loaded successfully." *)
  | InvalidJSON                           (* "Invalid JSON." *)
  | ErrorMessage (e : exn).               (* f"Error: {str(e)}" *)

(** [k in j] for a string [k]. *)
Definition py_in (k : string) (j : json) : exc bool :=
  match j with
  | JObj members => Ret (bool_decide (is_Some (assoc_get k members)))
  | JArr items => Ret (existsb (str_eq_json k) items)
  | JStr s => Ret (str_contains s k)
  | _ => Raise TypeError
  end.

(** [[k for k in keys if k not in source_data]] *)
Fixpoint missing_keys (keys : list string) (source_data : json) : exc (list string) :=
  match keys with
  | [] => Ret []
  | k :: rest =>
      let* present := py_in k source_data in
      let* others := missing_keys rest source_data in
      Ret (if present then others else k :: others)
  end.

Definition required_keys : list string := ["server_password"; "server_port"].

Section Config.
(** [int(s)] for a string and [int(f)] for a float ([None] when it
    raises), the files that exist and what loading gives. *)
Variable int_of_str : string → option Z.
Variable int_of_float : float → option Z.
Variable path_exists : string → bool.
Variable load_json : string → load_result.

(** [int(j)] *)
Definition py_int (j : json) : exc Z :=
  match j with
  | JInt z => Ret z
  | JBool b => Ret (if b then 1 else 0)%Z
  | JStr s => match int_of_str s with Some z => Ret z | None => Raise ValueError end
  | JFloat f => match int_of_float f with Some z => Ret z | None => Raise ValueError end
  | JNull | JArr _ | JObj _ => Raise TypeError
  end.

(** [update_wss_details] as a transition of the global: the returned
    pair and [WSS_DETAILS] afterwards. *)
Definition update_wss_details (source_path : string) (d : wss_details)
    : (bool * load_message) * wss_details :=
  if negb (str_truthy source_path) || negb (path_exists source_path)
  then ((false, FileNotFound), d)
  else
    match load_json source_path with
    | LoadRaises e => ((false, ErrorMessage e), d)
    | LoadInvalid => ((false, InvalidJSON), d)
    | Loaded source_data =>
        match missing_keys required_keys source_data with
        | Raise e => ((false, ErrorMessage e), d)
        | Ret (k :: ks) => ((false, MissingKeys (k :: ks)), d)
        | Ret [] =>
            match py_get_default source_data "server_password" (JStr "") with
            | Raise e => ((false, ErrorMessage e), d)
            | Ret pw =>
                let d1 := {| IP := IP d; PORT := PORT d; PW := pw |} in
                match (let* p := py_get_default source_data "server_port" (JInt 4455) in
                       py_int p) with
                | Raise e => ((false, ErrorMessage e), d1)
                | Ret port =>
                    let d2 := {| IP := IP d1; PORT := port; PW := PW d1 |} in
                    let d3 := {| IP := "localhost"; PORT := PORT d2; PW := PW d2 |} in
                    ((true, LoadedSuccessfully), d3)
                end
            end
        end
    end.
End Config.

(** *** Requests and responses *)

(** The texts passed to [_send_error]. *)
Inductive error_message : Type :=
  | MissingFolderParameter        (* "Missing folder parameter" *)
  | AccessDenied                  (* "Access denied" *)
  | MissingFolderOrFilename       (* "Missing folder or filename parameter" *)
  | FileNotFoundText              (* "File not found" *)
  | MissingFolderFilenameData     (* "Missing folder, filename, or data" *)
  | AccessDeniedOutsideRoot       (* "Access denied: Path outside root" *)
  | FailedToCreateDirectory (e : exn)
  | MissingOscAddress             (* "Missing OSC address or event_name" *)
  | OscScriptNotLoaded            (* "OSC Script not loaded or registered" *)
  | ClientNotFound (event_name : json)
  | ExceptionText (e : exn).      (* str(e) *)

Inductive response_body : Type :=
  | JsonBody (j : json)                   (* _send_json(j) *)
  | DetailsBody (d : wss_details)         (* _send_json(WSS_DETAILS) *)
  | ErrorBody (m : error_message)         (* _send_json({"error": m}) *)
  | RawBody (content : string)            (* the bytes of a file *)
  | HtmlErrorPage.                        (* send_error of the base class *)

Record response : Type := Response { status : Z; body : response_body }.

Definition _send_json (data : json) : response := Response 200 (JsonBody data).
Definition _send_error (message : error_message) (code : Z) : response :=
  Response code (ErrorBody message).

(** The filesystem calls a handler makes, in order. *)
Inductive fs_call : Type :=
  | CallExists (p : string)
  | CallListdir (p : string)
  | CallMakedirs (p : string)
  | CallOpenRead (p : string)
  | CallOpenWrite (p : string).

(** The filesystem as the handlers use it; file contents are byte
    strings. *)
Class FileSystem (FS : Type) : Type := {
  fs_exists : FS → string → bool;
  fs_listdir : FS → string → exc (list string);
  fs_read : FS → string → exc string;
  fs_makedirs : FS → string → exc FS;
  fs_write : FS → string → string → exc FS
}.

(** A file that was written is there and reads back as written. *)
Class FileSystemLaws (FS : Type) `{FileSystem FS} : Prop := {
  exists_after_write : ∀ (fs fs' : FS) p content,
    fs_write fs p content = Ret fs' → fs_exists fs' p = true;
  read_after_write : ∀ (fs fs' : FS) p content,
    fs_write fs p content = Ret fs' → fs_read fs' p = Ret content
}.

(** What the server sees of the other scripts through the [obs] module:
    the published OSC bridge, if any, with the client list of the manager
    behind its ["send"] entry, and whether [obs.midi_manager] is set. *)
Record registry : Type := Registry {
  osc_manager : option OSC.bridge;
  osc_clients : list OSC.OSCClient;
  midi_manager : bool
}.

Record outcome (FS : Type) : Type := Outcome {
  out_response : response;
  out_fs : FS;
  out_calls : list fs_call;
  out_datagrams : list OSC.datagram
}.
Arguments Outcome {FS}.
Arguments out_response {FS}.
Arguments out_fs {FS}.
Arguments out_calls {FS}.
Arguments out_datagrams {FS}.

Section Handler.
Context {FS : Type} `{FileSystem FS}.
(** The root directory, [json.dumps(data, indent=2)] and the UDP
    transport. *)
Variable SCRIPT_DIR : string.
Variable dumps_indent : json → string.
Variable udp_send_ok : OSC.udp_client → json → json → bool.
(** What [super().do_GET()], the static file handler of the base class,
    does with a request, given by its path and its query, on a given
    filesystem. *)
Variable static_GET : string → gmap string string → FS → outcome FS.

Definition reply (r : response) (fs : FS) (calls : list fs_call) : outcome FS :=
  Outcome r fs calls [].

(** [os.path.join(SCRIPT_DIR, folder)] on a decoded JSON value. *)
Definition join_root (folder : json) : exc string :=
  match folder with
  | JStr s => Ret (join SCRIPT_DIR s)
  | _ => Raise TypeError
  end.

(** [filename.endswith('.json')] and the suffix it guards. *)
Definition with_suffix (filename : json) : exc string :=
  match filename with
  | JStr s => Ret (if endswith s ".json" then s else s +:+ ".json")
  | JArr _ | JObj _ | JInt _ | JFloat _ | JBool _ | JNull => Raise AttributeError
  end.

(** The route [/api/file/list]. *)
Definition file_list (folder_list : option string) (fs : FS) : outcome FS :=
  match folder_list with
  | None => reply (_send_error MissingFolderParameter 400) fs []
  | Some folder =>
      if negb (str_truthy folder) then reply (_send_error MissingFolderParameter 400) fs []
      else
        let target_dir := join SCRIPT_DIR folder in
        if negb (startswith (normpath target_dir) SCRIPT_DIR)
        then reply (_send_error AccessDenied 403) fs []
        else if negb (fs_exists fs target_dir)
        then reply (_send_json (JArr [])) fs [CallExists target_dir]
        else
          match fs_listdir fs target_dir with
          | Ret names =>
              reply (_send_json (JArr (map JStr (List.filter (fun f => endswith f ".json") names))))
                    fs [CallExists target_dir; CallListdir target_dir]
          | Raise e =>
              reply (_send_error (ExceptionText e) 500)
                    fs [CallExists target_dir; CallListdir target_dir]
          end
  end.

(** The route [/api/file/get]. *)
Definition file_get (folder filename : option string) (fs : FS) : outcome FS :=
  match folder, filename with
  | Some folder, Some filename =>
      if negb (str_truthy folder) || negb (str_truthy filename)
      then reply (_send_error MissingFolderOrFilename 400) fs []
      else
        let target_dir := join SCRIPT_DIR folder in
        let full_path := join target_dir filename in
        if negb (startswith (normpath full_path) SCRIPT_DIR)
        then reply (_send_error AccessDenied 403) fs []
        else if negb (fs_exists fs full_path)
        then reply (_send_error FileNotFoundText 404) fs [CallExists full_path]
        else
          match fs_read fs full_path with
          | Ret content =>
              reply (Response 200 (RawBody content))
                    fs [CallExists full_path; CallOpenRead full_path]
          | Raise e =>
              reply (_send_error (ExceptionText e) 500)
                    fs [CallExists full_path; CallOpenRead full_path]
          end
  | _, _ => reply (_send_error MissingFolderOrFilename 400) fs []
  end.

(** [do_GET] on the parsed path and the first value of each query
    parameter. *)
Definition do_GET (path_path : string) (query_params : gmap string string)
    (details : wss_details) (fs : FS) : outcome FS :=
  if String.eqb path_path "/api/obswss" then reply (Response 200 (DetailsBody details)) fs []
  else if String.eqb path_path "/api/file/list" then file_list (query_params !! "folder") fs
  else if String.eqb path_path "/api/file/get"
  then file_get (query_params !! "folder") (query_params !! "filename") fs
  else static_GET path_path query_params fs.
(** [except Exception as e: self._send_error(str(e))] around a step. *)
Definition or_500 {A : Type} (m : exc A) (fs : FS) (calls : list fs_call)
    (k : A → outcome FS) : outcome FS :=
  match m with
  | Ret a => k a
  | Raise e => reply (_send_error (ExceptionText e) 500) fs calls
  end.

Definition is_none (j : json) : bool :=
  match j with JNull => true | _ => false end.

Definition saved (full_path : string) : json :=
  JObj [("success", JBool true); ("path", JStr full_path)].

(** The route [/api/file/save]; [body] is what reading and decoding the
    request body gave. *)
Definition file_save (body : exc json) (fs : FS) : outcome FS :=
  or_500 body fs [] (fun body =>
  or_500 (py_get body "folder") fs [] (fun folder =>
  or_500 (py_get body "filename") fs [] (fun filename =>
  or_500 (py_get body "data") fs [] (fun data =>
  if negb (truthy folder) || negb (truthy filename) || is_none data
  then reply (_send_error MissingFolderFilenameData 400) fs []
  else
    or_500 (join_root folder) fs [] (fun target_dir =>
    or_500 (with_suffix filename) fs [] (fun filename =>
    let full_path := join target_dir filename in
    if negb (startswith (normpath target_dir) SCRIPT_DIR)
    then reply (_send_error AccessDeniedOutsideRoot 403) fs []
    else
      let write (fs1 : FS) (calls : list fs_call) : outcome FS :=
        let calls := (calls ++ [CallOpenWrite full_path])%list in
        or_500 (fs_write fs1 full_path (dumps_indent data)) fs1 calls (fun fs2 =>
        reply (_send_json (saved full_path)) fs2 calls) in
      if negb (fs_exists fs target_dir) then
        match fs_makedirs fs target_dir with
        | Ret fs1 => write fs1 [CallExists target_dir; CallMakedirs target_dir]
        | Raise e =>
            reply (_send_error (FailedToCreateDirectory e) 500) fs
                  [CallExists target_dir; CallMakedirs target_dir]
        end
      else write fs [CallExists target_dir])))))).

(** [next((c for c in clients if c.get("event_name") == event_name), None)] *)
Fixpoint find_client_dict (clients : list OSC.client_dict) (event_name : json)
    : option OSC.client_dict :=
  match clients with
  | [] => None
  | c :: rest =>
      if str_eq_json (OSC.cd_event_name c) event_name then Some c
      else find_client_dict rest event_name
  end.

Definition success : json := JObj [("success", JBool true)].

(** The route [/api/osc/send]. *)
Definition osc_send (body : exc json) (reg : registry) (fs : FS) : outcome FS :=
  or_500 body fs [] (fun body =>
  or_500 (py_get body "event_name") fs [] (fun event_name =>
  or_500 (py_get body "address") fs [] (fun address =>
  or_500 (py_get_default body "args" (JArr [])) fs [] (fun args =>
  if negb (truthy address) || negb (truthy event_name)
  then reply (_send_error MissingOscAddress 400) fs []
  else
    match osc_manager reg with
    | None => reply (_send_error OscScriptNotLoaded 503) fs []
    | Some manager =>
        match find_client_dict (OSC.clients manager) event_name with
        | None => reply (_send_error (ClientNotFound event_name) 404) fs []
        | Some target_client =>
            Outcome (_send_json success) fs []
              (OSC._bridge_send udp_send_ok (osc_clients reg) target_client address args)
        end
    end)))).

(** [do_POST] *)
Definition do_POST (path : string) (body : exc json) (reg : registry) (fs : FS)
    : outcome FS :=
  if String.eqb path "/api/file/save" then file_save body fs
  else if String.eqb path "/api/osc/send" then osc_send body reg fs
  else reply (Response 404 HtmlErrorPage) fs [].
End Handler.

(** *** The listener and the script callbacks *)

(** The globals [HTTP_SERVER_INSTANCE] (the port it is bound to),
    [SERVER_THREAD] (whether a thread object is held) and
    [CURRENT_HTTP_PORT], with [WSS_DETAILS] and the script's settings. *)
Record server_state : Type := ServerState {
  HTTP_SERVER_INSTANCE : option Z;
  SERVER_THREAD : bool;
  CURRENT_HTTP_PORT : Z;
  WSS_DETAILS : wss_details
}.

Definition server_initial : server_state :=
  ServerState None false 8080 WSS_DETAILS_initial.

(** [repr] of a list of plain keys, as the f-string prints it. *)
Fixpoint repr_keys (keys : list string) : string :=
  match keys with
  | [] => ""
  | [k] => "'" +:+ k +:+ "'"
  | k :: rest => "'" +:+ k +:+ "', " +:+ repr_keys rest
  end.

Section Server.
Variable int_of_str : string → option Z.
Variable int_of_float : float → option Z.
Variable path_exists : string → bool.
Variable load_json : string → load_result.
Variable exn_text : exn → string.

(** What creating [ThreadingHTTPServer(("127.0.0.1", port), ...)] gives at
    the time of the call: the port the listening socket is bound to, or
    [None] when the constructor raises.  Asking for port 0 lets the
    system choose the port. *)
Variable bind : Z → option Z.

(** The text of a message of [update_wss_details]. *)
Definition message_text (m : load_message) : string :=
  match m with
  | FileNotFound => "File not found or not selected."
  | MissingKeys missing => "Missing keys: [" +:+ repr_keys missing +:+ "]"
  | LoadedSuccessfully => "Loaded successfully."
  | InvalidJSON => "Invalid JSON."
  | ErrorMessage e => "Error: " +:+ exn_text e
  end.

Definition with_listener (s : server_state) (instance : option Z) (thread : bool)
    : server_state :=
  ServerState instance thread (CURRENT_HTTP_PORT s) (WSS_DETAILS s).

(** [stop_server] *)
Definition stop_server (s : server_state) : server_state * list Host.socket_event :=
  let closed := match HTTP_SERVER_INSTANCE s with
                | Some port => [Host.Close "127.0.0.1" port]
                | None => []
                end in
  (with_listener s None false, closed).

(** [start_server]: creating the server raises when the port cannot be
    bound; the exception is logged and the instance reset.  The instance
    is recorded by the port its socket is bound to. *)
Definition start_server (port : Z) (s : server_state)
    : server_state * list Host.socket_event :=
  let '(s1, closed) := stop_server s in
  match bind port with
  | Some bound =>
      (with_listener s1 (Some bound) true, (closed ++ [Host.Bind "127.0.0.1" bound])%list)
  | None => (with_listener s1 None (SERVER_THREAD s1), closed)
  end.

(** [script_load] *)
Definition script_load (st : Host.settings) (s : server_state)
    : server_state * list Host.socket_event :=
  let wss_path := Host.obs_data_get_string st "wss_config_path" in
  let details :=
    if str_truthy wss_path
    then snd (update_wss_details int_of_str int_of_float path_exists load_json wss_path
                (WSS_DETAILS s))
    else WSS_DETAILS s in
  let port := Host.obs_data_get_int st "http_port" in
  let port := if (port =? 0)%Z then 8080%Z else port in
  start_server port
    (ServerState (HTTP_SERVER_INSTANCE s) (SERVER_THREAD s) port details).

(** [script_unload] *)
Definition script_unload (s : server_state) : server_state * list Host.socket_event :=
  stop_server s.

(** [on_wss_path_changed]: the state and the settings with the status
    text. *)
Definition on_wss_path_changed (st : Host.settings) (s : server_state)
    : server_state * Host.settings :=
  let path := Host.obs_data_get_string st "wss_config_path" in
  let '((_, msg), details) :=
    update_wss_details int_of_str int_of_float path_exists load_json path (WSS_DETAILS s) in
  (ServerState (HTTP_SERVER_INSTANCE s) (SERVER_THREAD s) (CURRENT_HTTP_PORT s) details,
   Host.obs_data_set_string st "status_text" (message_text msg)).

(** [on_port_changed] *)
Definition on_port_changed (st : Host.settings) (s : server_state)
    : server_state * list Host.socket_event :=
  let new_port := Host.obs_data_get_int st "http_port" in
  if negb (new_port =? CURRENT_HTTP_PORT s)%Z
  then start_server new_port
         (ServerState (HTTP_SERVER_INSTANCE s) (SERVER_THREAD s) new_port (WSS_DETAILS s))
  else (s, []).

(** The calls the host makes on the script. *)
Inductive call : Type :=
  | ScriptLoad (st : Host.settings)
  | PortChanged (st : Host.settings)
  | WssPathChanged (st : Host.settings)
  | ScriptUnload.

Definition run_call (c : call) (s : server_state) : server_state * list Host.socket_event :=
  match c with
  | ScriptLoad st => script_load st s
  | PortChanged st => on_port_changed st s
  | WssPathChanged st => (fst (on_wss_path_changed st s), [])
  | ScriptUnload => script_unload s
  end.

End Server.

Section Calls.
Variable int_of_str : string → option Z.
Variable int_of_float : float → option Z.
Variable path_exists : string → bool.
Variable load_json : string → load_result.
Variable exn_text : exn → string.

(** What creating a server gives may change with time: [bind_at n] is
    what it gives during the call number [n] of the host. *)
Variable bind_at : nat → Z → option Z.

Fixpoint run_calls (n : nat) (cs : list call) (s : server_state)
    : server_state * list Host.socket_event :=
  match cs with
  | [] => (s, [])
  | c :: rest =>
      let '(s1, evs1) :=
        run_call int_of_str int_of_float path_exists load_json exn_text (bind_at n) c s in
      let '(s2, evs2) := run_calls (S n) rest s1 in
      (s2, (evs1 ++ evs2)%list)
  end.
End Calls.

(** A filesystem for examples: the files are a map from the path string to
    the content, a directory is any path [makedirs] was called on. *)
Record map_fs : Type := MapFs {
  files : gmap string string;
  dirs : list string
}.

#[global] Instance map_fs_filesystem : FileSystem map_fs := {|
  fs_exists := fun fs p => bool_decide (is_Some (files fs !! p)) || MIDI.str_in p (dirs fs);
  fs_listdir := fun fs p => if MIDI.str_in p (dirs fs) then Ret [] else Raise OSError;
  fs_read := fun fs p => match files fs !! p with Some c => Ret c | None => Raise OSError end;
  fs_makedirs := fun fs p => Ret (MapFs (files fs) (p :: dirs fs));
  fs_write := fun fs p c => Ret (MapFs (<[p := c]> (files fs)) (dirs fs))
|}.

End HTTP.

(** ** Notions the properties are stated with *)

(** The filter [p] begins the address [s]: some text follows it. *)
Definition begins_with (s p : string) : Prop := ∃ rest, s = p +:+ rest.

(** [str_exists P s]: some character of [s] satisfies [P]. *)
Fixpoint str_exists (P : ascii → bool) (s : string) : bool :=
  match s with
  | EmptyString => false
  | String c rest => P c || str_exists P rest
  end.

Fixpoint str_forall (P : ascii → bool) (s : string) : bool :=
  match s with
  | EmptyString => true
  | String c rest => P c && str_forall P rest
  end.

Definition is_hex (c : ascii) : bool := bool_decide (is_Some (MIDI.hex_digit c)).

(** A character that is neither a hexadecimal digit nor white space. *)
Definition foreign (c : ascii) : bool := negb (is_hex c) && negb (MIDI.is_space c).

(** [hex_text bs s]: the string [s] writes the bytes [bs] as pairs of
    hexadecimal digits, with any number of spaces before, between and
    after the pairs. *)
Inductive hex_text : list Z → string → Prop :=
  | hex_text_end : hex_text [] ""
  | hex_text_space bs s : hex_text bs s → hex_text bs (String " " s)
  | hex_text_pair c1 c2 hi lo bs s :
      MIDI.hex_digit c1 = Some hi → MIDI.hex_digit c2 = Some lo →
      hex_text bs s →
      hex_text ((hi * 16 + lo)%Z :: bs) (String c1 (String c2 s)).

(** A byte value, and a JSON value that [bytearray] takes for one. *)
Definition is_byte (z : Z) : Prop := (0 ≤ z ≤ 255)%Z.

Definition byte_like (j : json) : bool :=
  match j with
  | JInt z => (0 <=? z)%Z && (z <=? 255)%Z
  | JBool _ => true
  | _ => false
  end.

(** Neither a string nor a list. *)
Definition other_shape (j : json) : bool :=
  match j with
  | JStr _ | JArr _ => false
  | _ => true
  end.

(** [hex_shape bs s]: the string [s] writes the bytes [bs] as pairs of
    hexadecimal digits, with white space before, between and after the
    pairs, and with spaces (not other white space) also between the two
    digits of a pair. *)
Inductive hex_shape : list Z → string → Prop :=
  | hex_shape_end : hex_shape [] ""
  | hex_shape_gap c bs s :
      MIDI.is_space c = true → hex_shape bs s → hex_shape bs (String c s)
  | hex_shape_pair c1 c2 gap hi lo bs s :
      MIDI.hex_digit c1 = Some hi → MIDI.hex_digit c2 = Some lo →
      str_forall (Ascii.eqb " ") gap = true →
      hex_shape bs s →
      hex_shape ((hi * 16 + lo)%Z :: bs) (String c1 (gap +:+ String c2 s)).

(** The byte a list element stands for: an integer 0-255 is itself, and a
    boolean, which Python counts as an integer, is 1 or 0. *)
Inductive byte_value : json → Z → Prop :=
  | byte_value_int z : is_byte z → byte_value (JInt z) z
  | byte_value_bool (b : bool) : byte_value (JBool b) (if b then 1 else 0)%Z.

(** [data_bytes data msg]: the data of a send request writes the message
    [msg], as a hexadecimal string or as a list of byte values. *)
Inductive data_bytes : json → list Z → Prop :=
  | data_bytes_text s bs : hex_shape bs s → data_bytes (JStr s) bs
  | data_bytes_list items bs : Forall2 byte_value items bs → data_bytes (JArr items) bs.

(** The port name saved for device [i], and whether it is among the
    enumerated input ports. *)
Definition saved_port (st : Host.settings) (i : nat) : string :=
  Host.obs_data_get_string st (Host.fkey "midi_port_name_" i).

Definition port_found (st : Host.settings) (ports : list string) (i : nat) : bool :=
  MIDI.str_in (saved_port st i) ports.

(** No flag is set after a flag that is clear: the devices that are found
    come before the devices that are not. *)
Fixpoint found_first (flags : list bool) : bool :=
  match flags with
  | [] => true
  | true :: rest => found_first rest
  | false :: rest => forallb negb rest
  end.

(** The settings after the saved port names of [idxs] were overwritten. *)
Definition mark_missing (st : Host.settings) (idxs : list nat) : Host.settings :=
  foldl (fun s i => Host.obs_data_set_string s (Host.fkey "midi_port_name_" i) "---") st idxs.

(** The devices [script_load] builds for the indices of [idxs] whose port
    is found, in order. *)
Definition loaded_table (st : Host.settings) (ports : list string) (idxs : list nat)
    : list MIDI.MidiDevice :=
  map (fun i => MIDI.loaded_device st i (saved_port st i))
      (List.filter (port_found st ports) idxs).

(** The answers that refuse a request: 400, 403, 404 and 503. *)
Definition refusal (code : Z) : bool :=
  ((code =? 400) || (code =? 403) || (code =? 404) || (code =? 503))%Z.

(** A filesystem call that only reads. *)
Definition reads_only (c : HTTP.fs_call) : bool :=
  match c with
  | HTTP.CallExists _ | HTTP.CallListdir _ | HTTP.CallOpenRead _ => true
  | HTTP.CallMakedirs _ | HTTP.CallOpenWrite _ => false
  end.

(** [s] ends with [suf]: some text precedes it. *)
Definition ends_with (s suf : string) : Prop := ∃ front, s = front +:+ suf.

(** The sockets left open by a history of socket events: a [Bind] opens
    one, a [Close] closes the first open socket with its address. *)
Fixpoint close_one (ip : string) (port : Z) (open : list (string * Z)) : list (string * Z) :=
  match open with
  | [] => []
  | (ip', port') :: rest =>
      if String.eqb ip ip' && (port =? port')%Z then rest
      else (ip', port') :: close_one ip port rest
  end.

Definition socket_step (open : list (string * Z)) (ev : Host.socket_event)
    : list (string * Z) :=
  match ev with
  | Host.Bind ip port => (open ++ [(ip, port)])%list
  | Host.Close ip port => close_one ip port open
  end.

Definition open_after (open : list (string * Z)) (evs : list Host.socket_event)
    : list (string * Z) :=
  foldl socket_step open evs.

(** The largest number of sockets open at one time in the course of a
    history. *)
Fixpoint peak (open : list (string * Z)) (evs : list Host.socket_event) : nat :=
  match evs with
  | [] => length open
  | ev :: rest => Nat.max (length open) (peak (socket_step open ev) rest)
  end.

(** The socket a manager holds. *)
Definition held (m : OSC.manager) : list (string * Z) :=
  match OSC.server m with
  | Some address => [address]
  | None => []
  end.

(** The manager is consistent: it runs, and holds a thread, exactly when
    it holds a bound server. *)
Definition consistent (m : OSC.manager) : Prop :=
  OSC.is_running m = bool_decide (is_Some (OSC.server m)) ∧
  OSC.server_thread m = bool_decide (is_Some (OSC.server m)).

(** A device that holds no handle. *)
Definition unbound (d : MIDI.MidiDevice) : Prop :=
  MIDI.midi_in d = None ∧ MIDI.midi_out d = None.

(** What the HTTP server sees of an OSC script in the state [w]. *)
Definition registry_of (w : OSC.osc_world) (midi : bool) : HTTP.registry :=
  HTTP.Registry (OSC.published w) (OSC.m_clients (OSC.MANAGER w)) midi.

(** The socket the HTTP script holds. *)
Definition listening (s : HTTP.server_state) : list (string * Z) :=
  match HTTP.HTTP_SERVER_INSTANCE s with
  | Some port => [("127.0.0.1", port)]
  | None => []
  end.

(** The system binds the port it is asked for, when that is not 0. *)
Definition binds_requested (bind : Z → option Z) : Prop :=
  ∀ port bound, bind port = Some bound → port ≠ 0%Z → bound = port.

(** The listener, when there is one and [CURRENT_HTTP_PORT] is not 0, is
    on [CURRENT_HTTP_PORT], and a thread object is held exactly when a
    server is. *)
Definition on_current_port (s : HTTP.server_state) : Prop :=
  (∀ port, HTTP.HTTP_SERVER_INSTANCE s = Some port → HTTP.CURRENT_HTTP_PORT s ≠ 0%Z →
     port = HTTP.CURRENT_HTTP_PORT s) ∧
  HTTP.SERVER_THREAD s = bool_decide (is_Some (HTTP.HTTP_SERVER_INSTANCE s)).

(** A decoded document that is a JSON object. *)
Definition is_object (j : json) : bool :=
  match j with
  | JObj _ => true
  | _ => false
  end.

(** ** Concrete inputs *)

Module Examples.

Definition root : string := "/opt/obs".

Definition dumps_indent (j : json) : string :=
  match j with
  | JNull => "null"
  | JObj [] => "{}"
  | _ => "[]"
  end.

Definition fader_client : OSC.OSCClient :=
  {| OSC.ip := "192.168.0.20"; OSC.port := 9000; OSC.browser_source := "Overlay";
     OSC.osc_address := "/fader"; OSC.event_name := "osc_event_0";
     OSC._udp_client := None |}.

(** The bridge is registered and knows [osc_event_0]; the client behind
    it owns no socket. *)
Definition registered : HTTP.registry :=
  {| HTTP.osc_manager := Some (OSC.Bridge [OSC.to_dict fader_client]);
     HTTP.osc_clients := [fader_client];
     HTTP.midi_manager := true |}.

Definition osc_body : list (string * json) :=
  [("event_name", JStr "osc_event_0"); ("address", JStr "/fader1");
   ("args", JArr [JFloat 0.5])].

Definition empty_fs : HTTP.map_fs := HTTP.MapFs ∅ [].

(** One configured device whose saved port is not enumerated. *)
Definition one_missing : Host.settings :=
  {[ "number_of_devices" := Host.IInt 1;
     "midi_port_name_0" := Host.IStr "Launchpad" ]}.

(** Two configured devices: the first is plugged in, the second is not. *)
Definition found_then_missing : Host.settings :=
  {[ "number_of_devices" := Host.IInt 2;
     "midi_port_name_0" := Host.IStr "Launchpad";
     "midi_port_name_1" := Host.IStr "Keystation" ]}.

(** Two configured devices: the first is not plugged in, the second is. *)
Definition missing_then_found : Host.settings :=
  {[ "number_of_devices" := Host.IInt 2;
     "midi_port_name_0" := Host.IStr "Keystation";
     "midi_port_name_1" := Host.IStr "Launchpad" ]}.

Definition bound_device : MIDI.MidiDevice :=
  {| MIDI.device_name := "MIDI Device 1"; MIDI.port_name := Some "Launchpad";
     MIDI.midi_in := Some (MIDI.MidiHandle 0 true);
     MIDI.midi_out := Some (MIDI.MidiHandle 0 true);
     MIDI.browser_source_name := "Overlay"; MIDI.event_name := "midiDevice_0" |}.

(** A second device, under an event name of its own. *)
Definition keys_device : MIDI.MidiDevice :=
  {| MIDI.device_name := "MIDI Device 2"; MIDI.port_name := Some "Keystation";
     MIDI.midi_in := Some (MIDI.MidiHandle 1 true);
     MIDI.midi_out := Some (MIDI.MidiHandle 1 true);
     MIDI.browser_source_name := "Overlay"; MIDI.event_name := "keys" |}.

Definition save_body (filename : string) (data : json) : list (string * json) :=
  [("folder", JStr "profiles"); ("filename", JStr filename); ("data", data)].

End Examples.

(** ** Concrete inputs for the further properties *)

Module Scenarios.

(** One OSC client with an address and no event name of its own. *)
Definition osc_settings : Host.settings :=
  {[ "number_of_clients" := Host.IInt 1;
     "client_ip_0" := Host.IStr "192.168.0.20";
     "client_port_0" := Host.IInt 9000;
     "server_ip" := Host.IStr "127.0.0.1";
     "server_port" := Host.IInt 12345 ]}.

(** One MIDI device whose port is plugged in. *)
Definition midi_settings : Host.settings :=
  {[ "number_of_devices" := Host.IInt 1;
     "midi_port_name_0" := Host.IStr "Launchpad" ]}.

Definition unbound_device : MIDI.MidiDevice :=
  {| MIDI.device_name := "MIDI Device 1"; MIDI.port_name := Some "Launchpad";
     MIDI.midi_in := None; MIDI.midi_out := None;
     MIDI.browser_source_name := "Overlay"; MIDI.event_name := "midiDevice_0" |}.


Definition credentials : json :=
  JObj [("server_password", JStr "secret"); ("server_port", JInt 4460)].

Definition key_list : json := JArr [JStr "server_password"; JStr "server_port"].

Definition unregistered : HTTP.registry := HTTP.Registry None [] false.

(** Settings with the HTTP port 9090, and a system that binds the port
    it is asked for and port 49152 when asked for 0. *)
Definition http_settings : Host.settings := {[ "http_port" := Host.IInt 9090 ]}.

Definition system_port (n : nat) (port : Z) : option Z :=
  Some (if (port =? 0)%Z then 49152%Z else port).

(** A stand-in for the static file handler in the examples, all of which
    address the API routes and never reach it. *)
Definition no_static (path : string) (query : gmap string string) (fs : HTTP.map_fs)
    : HTTP.outcome HTTP.map_fs :=
  HTTP.Outcome (HTTP.Response 404 HTTP.HtmlErrorPage) fs [] [].

End Scenarios.

(** * Properties *)

(** ** Strings *)

Lemma prefix_nil s : String.prefix "" s = true.
Proof. destruct s; reflexivity. Qed.

Lemma prefix_cons_nil c p : String.prefix (String c p) "" = false.
Proof. reflexivity. Qed.

Lemma prefix_cons c p d s :
  String.prefix (String c p) (String d s) =
  if Ascii.ascii_dec c d then String.prefix p s else false.
Proof. reflexivity. Qed.

Lemma app_nil_l s : "" +:+ s = s.
Proof. reflexivity. Qed.

Lemma app_cons c s t : String c s +:+ t = String c (s +:+ t).
Proof. reflexivity. Qed.

Lemma startswith_begins s p : startswith s p = true ↔ begins_with s p.
Proof.
  unfold startswith, begins_with. revert s.
  induction p as [|c p IH]; intros s.
  - rewrite prefix_nil. split; [intros _; by exists s | done].
  - destruct s as [|d s].
    + rewrite prefix_cons_nil. split; [done | intros [rest Hrest]; discriminate].
    + rewrite prefix_cons. destruct (Ascii.ascii_dec c d) as [->|Hne].
      * rewrite IH. split; intros [rest Hrest]; exists rest;
          rewrite app_cons in *; congruence.
      * split; [done | intros [rest Hrest]; rewrite app_cons in Hrest; congruence].
Qed.

Lemma startswith_empty s : startswith s "" = true.
Proof. apply startswith_begins. by exists s. Qed.

Lemma str_truthy_false s : str_truthy s = false ↔ s = "".
Proof.
  unfold str_truthy. destruct (String.eqb_spec s ""); simpl; split; congruence.
Qed.

Lemma str_truthy_true s : str_truthy s = true ↔ s ≠ "".
Proof.
  unfold str_truthy. destruct (String.eqb_spec s ""); simpl; split; congruence.
Qed.

(** ** OSC inbound dispatch *)

Section OSCReceive.
Import OSC.
Variable arg : Type.
Variable dumps_event : string → list arg → option string.
Variable source_exists : string → bool.

(** [matches] is the prefix test of the filter; the empty filter needs
    no case of its own. *)
Lemma matches_begins c address :
  matches c address = true ↔ begins_with address (osc_address c).
Proof.
  unfold matches. destruct (str_truthy (osc_address c)) eqn:Hf; simpl.
  - apply startswith_begins.
  - apply str_truthy_false in Hf. rewrite Hf. split; [|done].
    intros _. by exists address.
Qed.

Lemma matches_empty_filter c address :
  osc_address c = "" → matches c address = true.
Proof. intros Hf. unfold matches. by rewrite Hf. Qed.

Lemma matches_not_begins c address :
  matches c address = false ↔ ¬ begins_with address (osc_address c).
Proof.
  rewrite <- matches_begins. destruct (matches c address); split; congruence.
Qed.

(** C2: one inbound message is handed to the first client, in table
    order, whose address filter begins the incoming address (the empty
    filter begins every address) and to no other client; when no filter
    matches the callback returns with no dispatch and no exception. *)
Theorem on_osc_received_first_match (clients : list OSCClient) (address : string)
    (args : list arg) :
  let result := _on_osc_received arg dumps_event source_exists clients address args in
  (length (fst result) ≤ 1)%nat ∧
  ((Forall (fun c => ¬ begins_with address (osc_address c)) clients ∧
    result = ([], Ret []))
   ∨
   (∃ before client after,
      clients = (before ++ client :: after)%list ∧
      Forall (fun c => ¬ begins_with address (osc_address c)) before ∧
      begins_with address (osc_address client) ∧
      result = ([client], _dispatch_to_obs arg dumps_event source_exists client address args))).
Proof.
  induction clients as [|c rest IH]; simpl.
  - split; [lia | left; split; [constructor | reflexivity]].
  - destruct (matches c address) eqn:Hm.
    + split; [simpl; lia|]. right. exists [], c, rest.
      split; [reflexivity|]. split; [constructor|].
      split; [by apply matches_begins | reflexivity].
    + apply matches_not_begins in Hm. destruct IH as [Hlen [[Hnone Hres] | Hsome]].
      * split; [exact Hlen|]. left. split; [by constructor | exact Hres].
      * split; [exact Hlen|]. right.
        destruct Hsome as (before & client & after & -> & Hbefore & Hclient & Hres).
        exists (c :: before), client, after.
        split; [reflexivity|]. split; [by constructor|]. by split.
Qed.
End OSCReceive.

(** ** The POST routes that reach the other scripts *)

Section PostRoutes.
Import HTTP.
Context {FS : Type} `{FileSystem FS}.
Variable SCRIPT_DIR : string.
Variable dumps_indent : json → string.

Lemma find_client_dict_none (clients : list OSC.client_dict) (ev : string) :
  (∀ c, c ∈ clients → OSC.cd_event_name c ≠ ev) →
  find_client_dict clients (JStr ev) = None.
Proof.
  induction clients as [|c rest IH]; intros Hall; simpl; [done|].
  destruct (String.eqb_spec (OSC.cd_event_name c) ev) as [Heq|Hne].
  - exfalso. apply (Hall c); [left | exact Heq].
  - apply IH. intros c' Hin. apply Hall. by right.
Qed.

Lemma find_client_dict_some (clients : list OSC.client_dict) (ev : string) :
  (∃ c, c ∈ clients ∧ OSC.cd_event_name c = ev) →
  ∃ c, find_client_dict clients (JStr ev) = Some c ∧ OSC.cd_event_name c = ev.
Proof.
  induction clients as [|c rest IH]; intros (c' & Hin & Hev); simpl.
  - by apply elem_of_nil in Hin.
  - destruct (String.eqb_spec (OSC.cd_event_name c) ev) as [Heq|Hne].
    + by exists c.
    + apply IH. exists c'. split; [|exact Hev].
      apply elem_of_cons in Hin as [->|Hin]; [congruence | exact Hin].
Qed.

Lemma truthy_str_nonempty ev : ev ≠ "" → truthy (JStr ev) = true.
Proof. intros Hne. simpl. by apply str_truthy_true in Hne. Qed.

(** The run of [osc_send] on a body that carries both fields, up to the
    look-up of the bridge. *)
Lemma osc_send_well_formed udp_send_ok members ev address reg (fs : FS) :
  assoc_get "event_name" members = Some (JStr ev) → ev ≠ "" →
  assoc_get "address" members = Some address → truthy address = true →
  osc_send udp_send_ok (Ret (JObj members)) reg fs =
  match osc_manager reg with
  | None => reply (_send_error OscScriptNotLoaded 503) fs []
  | Some manager =>
      match find_client_dict (OSC.clients manager) (JStr ev) with
      | None => reply (_send_error (ClientNotFound (JStr ev)) 404) fs []
      | Some target_client =>
          Outcome (_send_json success) fs []
            (OSC._bridge_send udp_send_ok (osc_clients reg) target_client address
               (default (JArr []) (assoc_get "args" members)))
      end
  end.
Proof.
  intros Hev Hne Haddr Htruthy. unfold osc_send, or_500, py_get, py_get_default.
  rewrite Hev, Haddr. simpl default. rewrite Htruthy, (truthy_str_nonempty ev Hne).
  reflexivity.
Qed.

(** C3: a POST to [/api/osc/send] whose body carries a non-empty
    [event_name] and an [address] answers 503 when no OSC bridge is
    registered, 404 when the registered bridge knows no client of that
    name, and 200 with [{"success": true}] when it knows one. *)
Theorem osc_send_status udp_send_ok members ev address reg (fs : FS) :
  assoc_get "event_name" members = Some (JStr ev) → ev ≠ "" →
  assoc_get "address" members = Some address → truthy address = true →
  let resp := out_response
    (do_POST SCRIPT_DIR dumps_indent udp_send_ok "/api/osc/send" (Ret (JObj members)) reg fs) in
  (osc_manager reg = None → status resp = 503%Z) ∧
  (∀ manager, osc_manager reg = Some manager →
     (∀ c, c ∈ OSC.clients manager → OSC.cd_event_name c ≠ ev) →
     status resp = 404%Z) ∧
  (∀ manager, osc_manager reg = Some manager →
     (∃ c, c ∈ OSC.clients manager ∧ OSC.cd_event_name c = ev) →
     resp = Response 200 (JsonBody (JObj [("success", JBool true)]))).
Proof.
  intros Hev Hne Haddr Htruthy resp. subst resp.
  change (do_POST SCRIPT_DIR dumps_indent udp_send_ok "/api/osc/send"
            (Ret (JObj members)) reg fs)
    with (osc_send udp_send_ok (Ret (JObj members)) reg fs).
  rewrite (osc_send_well_formed _ _ _ _ _ _ Hev Hne Haddr Htruthy).
  split; [|split].
  - intros ->. reflexivity.
  - intros manager -> Hunknown.
    by rewrite (find_client_dict_none _ _ Hunknown).
  - intros manager -> Hknown.
    destruct (find_client_dict_some _ _ Hknown) as (c & -> & _). reflexivity.
Qed.

(** C10: once the bridge is registered and knows the client, the answer
    is 200 with [{"success": true}] for every transport and every state
    of the manager's sockets; it is the same answer when the client owns
    no socket, when the send raises, and when the manager no longer has
    the client, and in those cases no datagram is sent. *)
Theorem osc_send_success_ignores_transport members ev address reg (fs : FS) manager :
  assoc_get "event_name" members = Some (JStr ev) → ev ≠ "" →
  assoc_get "address" members = Some address → truthy address = true →
  osc_manager reg = Some manager →
  (∃ c, c ∈ OSC.clients manager ∧ OSC.cd_event_name c = ev) →
  let run := fun udp_send_ok =>
    do_POST SCRIPT_DIR dumps_indent udp_send_ok "/api/osc/send" (Ret (JObj members)) reg fs in
  (∀ udp_send_ok,
     out_response (run udp_send_ok) = Response 200 (JsonBody (JObj [("success", JBool true)]))) ∧
  (∀ udp_send_ok target,
     OSC.find_client (osc_clients reg) ev = Some target → OSC._udp_client target = None →
     out_datagrams (run udp_send_ok) = []) ∧
  (∀ udp_send_ok,
     (∀ sock a args, udp_send_ok sock a args = false) →
     out_datagrams (run udp_send_ok) = []) ∧
  (∀ udp_send_ok,
     OSC.find_client (osc_clients reg) ev = None →
     out_datagrams (run udp_send_ok) = []).
Proof.
  intros Hev Hne Haddr Htruthy Hreg Hknown run.
  assert (Hrun : ∀ udp_send_ok, ∃ c,
    OSC.cd_event_name c = ev ∧
    run udp_send_ok =
      Outcome (_send_json success) fs []
        (OSC._bridge_send udp_send_ok (osc_clients reg) c address
           (default (JArr []) (assoc_get "args" members)))).
  { intros udp. subst run. cbv beta.
    change (do_POST SCRIPT_DIR dumps_indent udp "/api/osc/send"
              (Ret (JObj members)) reg fs)
      with (osc_send udp (Ret (JObj members)) reg fs).
    rewrite (osc_send_well_formed _ _ _ _ _ _ Hev Hne Haddr Htruthy), Hreg.
    destruct (find_client_dict_some _ _ Hknown) as (c & -> & Hc). by exists c. }
  repeat split.
  - intros udp. destruct (Hrun udp) as (c & _ & ->). reflexivity.
  - intros udp target Hfind Hsock. destruct (Hrun udp) as (c & Hc & ->). simpl.
    unfold OSC._bridge_send, OSC.send. by rewrite Hc, Hfind, Hsock.
  - intros udp Hfail. destruct (Hrun udp) as (c & Hc & ->). simpl.
    unfold OSC._bridge_send, OSC.send.
    destruct (OSC.find_client _ _) as [target|]; [|done].
    destruct (OSC._udp_client target); [|done]. by rewrite Hfail.
  - intros udp Hfind. destruct (Hrun udp) as (c & Hc & ->). simpl.
    unfold OSC._bridge_send. by rewrite Hc, Hfind.
Qed.

(** Every path but the two routes falls through to the 404 page. *)
Lemma do_POST_fallback udp_send_ok path body reg (fs : FS) :
  path ≠ "/api/file/save" → path ≠ "/api/osc/send" →
  do_POST SCRIPT_DIR dumps_indent udp_send_ok path body reg fs =
  reply (Response 404 HtmlErrorPage) fs [].
Proof.
  intros Hsave Hosc. unfold do_POST.
  destruct (String.eqb_spec path "/api/file/save"); [done|].
  destruct (String.eqb_spec path "/api/osc/send"); [done|]. reflexivity.
Qed.

(** C4: the server has no MIDI send route.  No POST reads
    [obs.midi_manager]: whatever the path and the body, the outcome is the
    same with the MIDI bridge registered and without it.  A POST to
    [/api/midi/send] gets the 404 page in both cases, where 200 and 503
    were due, and nothing is sent. *)
Theorem midi_send_route_missing udp_send_ok body bridge osc_clients (fs : FS) :
  (∀ path,
     do_POST SCRIPT_DIR dumps_indent udp_send_ok path body
       (Registry bridge osc_clients true) fs =
     do_POST SCRIPT_DIR dumps_indent udp_send_ok path body
       (Registry bridge osc_clients false) fs) ∧
  (∀ registered,
     do_POST SCRIPT_DIR dumps_indent udp_send_ok "/api/midi/send" body
       (Registry bridge osc_clients registered) fs =
     Outcome (Response 404 HtmlErrorPage) fs [] []).
Proof.
  split.
  - intros path. unfold do_POST.
    destruct (String.eqb path "/api/file/save"); [reflexivity|].
    destruct (String.eqb path "/api/osc/send"); reflexivity.
  - intros registered. reflexivity.
Qed.
End PostRoutes.

(** ** Loading the credentials file *)

Section ConfigFacts.
Import HTTP.
Variable int_of_str : string → option Z.
Variable int_of_float : float → option Z.
Variable path_exists : string → bool.
Variable load_json : string → load_result.

Abbreviation update := (update_wss_details int_of_str int_of_float path_exists load_json).

(** No path, or no file at the path: rejected, nothing changes. *)
Lemma update_missing_file source_path d :
  source_path = "" ∨ path_exists source_path = false →
  update source_path d = ((false, FileNotFound), d).
Proof.
  intros [-> | Hno]; unfold update_wss_details; [reflexivity|].
  rewrite Hno. by rewrite orb_true_r.
Qed.

(** The file does not decode, or cannot be read: rejected, nothing
    changes. *)
Lemma update_malformed source_path d :
  source_path ≠ "" → path_exists source_path = true →
  (load_json source_path = LoadInvalid →
     update source_path d = ((false, InvalidJSON), d)) ∧
  (∀ e, load_json source_path = LoadRaises e →
     update source_path d = ((false, ErrorMessage e), d)).
Proof.
  intros Hpath Hex. apply str_truthy_true in Hpath.
  unfold update_wss_details. rewrite Hpath, Hex. simpl.
  split; [intros -> | intros e ->]; reflexivity.
Qed.

(** A required key is absent from the decoded object: rejected with the
    list of missing keys, nothing changes. *)
Lemma update_missing_key source_path d members :
  source_path ≠ "" → path_exists source_path = true →
  load_json source_path = Loaded (JObj members) →
  assoc_get "server_password" members = None ∨ assoc_get "server_port" members = None →
  ∃ missing, missing ≠ [] ∧
    update source_path d = ((false, MissingKeys missing), d).
Proof.
  intros Hpath Hex Hload Hmiss. apply str_truthy_true in Hpath.
  unfold update_wss_details. rewrite Hpath, Hex, Hload. simpl.
  destruct (assoc_get "server_password" members) as [pw|] eqn:Hpw;
    destruct (assoc_get "server_port" members) as [port|] eqn:Hport; simpl.
  - by destruct Hmiss.
  - by exists ["server_port"].
  - by exists ["server_password"].
  - by exists ["server_password"; "server_port"].
Qed.

(** Both keys present and the port convertible: the triple is replaced
    whole, with the host fixed to ["localhost"]. *)
Lemma update_success source_path d members pw port z :
  source_path ≠ "" → path_exists source_path = true →
  load_json source_path = Loaded (JObj members) →
  assoc_get "server_password" members = Some pw →
  assoc_get "server_port" members = Some port →
  py_int int_of_str int_of_float port = Ret z →
  update source_path d =
    ((true, LoadedSuccessfully), {| IP := "localhost"; PORT := z; PW := pw |}).
Proof.
  intros Hpath Hex Hload Hpw Hport Hint. apply str_truthy_true in Hpath.
  unfold update_wss_details. rewrite Hpath, Hex, Hload. simpl.
  rewrite Hpw, Hport. simpl. by rewrite Hint.
Qed.

(** A port that [int] refuses: the load is rejected, but the password
    was already stored. *)
Lemma update_unusable_port source_path d members pw port e :
  source_path ≠ "" → path_exists source_path = true →
  load_json source_path = Loaded (JObj members) →
  assoc_get "server_password" members = Some pw →
  assoc_get "server_port" members = Some port →
  py_int int_of_str int_of_float port = Raise e →
  update source_path d =
    ((false, ErrorMessage e), {| IP := IP d; PORT := PORT d; PW := pw |}).
Proof.
  intros Hpath Hex Hload Hpw Hport Hint. apply str_truthy_true in Hpath.
  unfold update_wss_details. rewrite Hpath, Hex, Hload. simpl.
  rewrite Hpw, Hport. simpl. by rewrite Hint.
Qed.
End ConfigFacts.

(** C5, at the input where the code departs from it: the file holds
    [{"server_password": "new", "server_port": null}] and the triple in
    memory has the password ["old"].  The load is rejected with an error
    message, yet the password in memory is now ["new"]: the triple is not
    retained unchanged. *)
Theorem update_wss_details_partial_update :
  let file := JObj [("server_password", JStr "new"); ("server_port", JNull)] in
  let before := {| HTTP.IP := "localhost"; HTTP.PORT := 4455; HTTP.PW := JStr "old" |} in
  ∀ int_of_str int_of_float,
    HTTP.update_wss_details int_of_str int_of_float
      (fun _ => true) (fun _ => HTTP.Loaded file) "wss.json" before
    = ((false, HTTP.ErrorMessage TypeError),
       {| HTTP.IP := "localhost"; HTTP.PORT := 4455; HTTP.PW := JStr "new" |})
    ∧ snd (HTTP.update_wss_details int_of_str int_of_float
             (fun _ => true) (fun _ => HTTP.Loaded file) "wss.json" before) ≠ before.
Proof. intros file before int_of_str int_of_float. split; [reflexivity | discriminate]. Qed.

(** ** MIDI input *)

Section MidiInput.
Import MIDI.
Variable source_exists : string → bool.
Variable dumps : json → string.
Variable inject_ok : Host.js_event → bool.


End MidiInput.

(** ** MIDI output *)

Section MidiOutput.
Import MIDI.

Lemma hex_digit_not_space c v :
  hex_digit c = Some v → is_space c = false ∧ Ascii.eqb c " " = false.
Proof.
  destruct c as [b0 b1 b2 b3 b4 b5 b6 b7].
  destruct b0, b1, b2, b3, b4, b5, b6, b7; vm_compute; intros Hv;
    first [discriminate Hv | split; reflexivity].
Qed.

Lemma fromhex_pair c1 c2 hi lo rest :
  hex_digit c1 = Some hi → hex_digit c2 = Some lo →
  fromhex (String c1 (String c2 rest)) =
  let* bs := fromhex rest in Ret ((hi * 16 + lo)%Z :: bs).
Proof.
  intros H1 H2. simpl fromhex.
  destruct (hex_digit_not_space _ _ H1) as [-> _]. by rewrite H1, H2.
Qed.

(** A hexadecimal text decodes to the bytes it writes. *)
Lemma fromhex_hex_text bs s :
  hex_text bs s → fromhex (remove_spaces s) = Ret bs.
Proof.
  induction 1 as [|bs s _ IH|c1 c2 hi lo bs s H1 H2 _ IH].
  - reflexivity.
  - exact IH.
  - simpl remove_spaces.
    destruct (hex_digit_not_space _ _ H1) as [_ ->].
    destruct (hex_digit_not_space _ _ H2) as [_ ->].
    rewrite (fromhex_pair _ _ _ _ _ H1 H2), IH. reflexivity.
Qed.

Lemma is_hex_digit c : is_hex c = true → ∃ v, hex_digit c = Some v.
Proof.
  unfold is_hex. intros Hc. apply bool_decide_eq_true in Hc.
  destruct Hc as [v Hv]. by exists v.
Qed.

(** An odd number of hexadecimal digits does not decode. *)
Lemma fromhex_odd (n : nat) : ∀ t,
  (String.length t ≤ n)%nat → str_forall is_hex t = true →
  Nat.odd (String.length t) = true → fromhex t = Raise ValueError.
Proof.
  induction n as [|n IH]; intros t Hlen Hall Hodd.
  - destruct t; simpl in *; [discriminate | lia].
  - destruct t as [|c1 [|c2 rest]].
    + discriminate.
    + simpl in Hall. apply andb_true_iff in Hall as [Hc1 _].
      destruct (is_hex_digit _ Hc1) as [v Hv]. simpl.
      destruct (hex_digit_not_space _ _ Hv) as [-> _]. by rewrite Hv.
    + simpl in Hall. apply andb_true_iff in Hall as [Hc1 Hall].
      apply andb_true_iff in Hall as [Hc2 Hall].
      destruct (is_hex_digit _ Hc1) as [v1 Hv1].
      destruct (is_hex_digit _ Hc2) as [v2 Hv2].
      rewrite (fromhex_pair _ _ _ _ _ Hv1 Hv2), (IH rest); [reflexivity | | exact Hall |].
      * simpl in Hlen. lia.
      * change (String.length (String c1 (String c2 rest)))
          with (S (S (String.length rest))) in Hodd.
        by rewrite Nat.odd_succ_succ in Hodd.
Qed.

Lemma foreign_spec c :
  foreign c = true → hex_digit c = None ∧ is_space c = false.
Proof.
  unfold foreign, is_hex. intros Hc. apply andb_true_iff in Hc as [Hh Hs].
  apply negb_true_iff in Hh, Hs. apply bool_decide_eq_false in Hh.
  split; [|exact Hs]. destruct (hex_digit c); [|done]. exfalso. apply Hh. by eexists.
Qed.

Lemma not_foreign_hex c v : hex_digit c = Some v → foreign c = false.
Proof. intros Hv. unfold foreign, is_hex. rewrite Hv. reflexivity. Qed.

Lemma not_foreign_space c : is_space c = true → foreign c = false.
Proof. intros Hs. unfold foreign. rewrite Hs. apply andb_false_r. Qed.

(** A character that is neither digit nor white space does not decode. *)
Lemma fromhex_foreign (n : nat) : ∀ t,
  (String.length t ≤ n)%nat → str_exists foreign t = true →
  fromhex t = Raise ValueError.
Proof.
  induction n as [|n IH]; intros t Hlen Hex.
  - destruct t; simpl in *; [discriminate | lia].
  - destruct t as [|c1 rest]; [discriminate|].
    simpl in Hex, Hlen. simpl fromhex.
    destruct (is_space c1) eqn:Hs1.
    + rewrite (not_foreign_space _ Hs1) in Hex. apply IH; [lia | exact Hex].
    + destruct (hex_digit c1) as [top|] eqn:Hd1; [|reflexivity].
      rewrite (not_foreign_hex _ _ Hd1) in Hex.
      destruct rest as [|c2 rest2]; [reflexivity|].
      destruct (hex_digit c2) as [bot|] eqn:Hd2; [|reflexivity].
      simpl in Hex, Hlen. rewrite (not_foreign_hex _ _ Hd2) in Hex.
      rewrite (IH rest2); [reflexivity | lia | exact Hex].
Qed.

Lemma remove_spaces_foreign s :
  str_exists foreign s = true → str_exists foreign (remove_spaces s) = true.
Proof.
  induction s as [|c s IH]; [done|]. simpl.
  destruct (Ascii.eqb_spec c " ") as [->|Hne]; simpl.
  - exact IH.
  - intros Hex. apply orb_true_iff in Hex as [Hc|Hs].
    + by rewrite Hc.
    + rewrite (IH Hs). apply orb_true_r.
Qed.

(** A list of byte values converts to itself. *)
Lemma bytearray_bytes bs :
  Forall is_byte bs → bytearray (map JInt bs) = Ret bs.
Proof.
  induction 1 as [|b bs Hb _ IH]; [reflexivity|].
  simpl. unfold is_byte in Hb.
  replace ((0 <=? b)%Z && (b <? 256)%Z) with true; [by rewrite IH|].
  symmetry. apply andb_true_iff. split; [apply Z.leb_le | apply Z.ltb_lt]; lia.
Qed.

Lemma byte_of_json_unlike j : byte_like j = false → ∃ e, byte_of_json j = Raise e.
Proof.
  destruct j; simpl; try (intros _; by eexists); [discriminate|].
  intros Hz. replace ((0 <=? z)%Z && (z <? 256)%Z) with false; [by eexists|].
  symmetry. apply andb_false_iff. apply andb_false_iff in Hz as [Hz|Hz];
    [left | right]; [exact Hz|].
  apply Z.ltb_ge. apply Z.leb_gt in Hz. lia.
Qed.

(** A list with an element that is no byte value does not convert. *)
Lemma bytearray_unlike items :
  Exists (fun j => byte_like j = false) items → ∃ e, bytearray items = Raise e.
Proof.
  induction 1 as [j rest Hj | j rest _ IH]; simpl.
  - destruct (byte_of_json_unlike _ Hj) as [e ->]. by exists e.
  - destruct IH as [e ->]. destruct (byte_of_json j); by eexists.
Qed.

(** What [s.replace(" ", "")] leaves begins with the first character of
    [s] that is no space. *)
Lemma remove_spaces_head t : ∀ c u,
  remove_spaces t = String c u →
  ∃ gap t2, t = gap +:+ String c t2 ∧ str_forall (Ascii.eqb " ") gap = true ∧
            remove_spaces t2 = u ∧ (String.length t2 < String.length t)%nat.
Proof.
  induction t as [|a t IH]; intros c u; [discriminate|]. simpl remove_spaces.
  destruct (Ascii.eqb_spec a " ") as [->|Hne].
  - intros Hrest. destruct (IH _ _ Hrest) as (gap & t2 & -> & Hgap & Hu & Hlen).
    exists (String " " gap), t2. rewrite app_cons. split; [reflexivity|].
    split; [exact Hgap|]. split; [exact Hu|]. simpl. lia.
  - intros [= -> <-]. exists "", t. rewrite app_nil_l. split; [reflexivity|].
    split; [reflexivity|]. split; [reflexivity|]. simpl. lia.
Qed.

Lemma str_forall_cons (P : ascii → bool) c s :
  str_forall P (String c s) = P c && str_forall P s.
Proof. reflexivity. Qed.

Lemma remove_spaces_gap gap : ∀ t,
  str_forall (Ascii.eqb " ") gap = true → remove_spaces (gap +:+ t) = remove_spaces t.
Proof.
  induction gap as [|a gap IH]; intros t Hgap; [by rewrite app_nil_l|].
  rewrite str_forall_cons in Hgap. apply andb_true_iff in Hgap as [Ha Hgap].
  apply Ascii.eqb_eq in Ha as <-. rewrite app_cons. simpl. by apply IH.
Qed.

(** A text of the shape decodes to the bytes it writes. *)
Lemma fromhex_hex_shape bs s :
  hex_shape bs s → fromhex (remove_spaces s) = Ret bs.
Proof.
  induction 1 as [|c bs s Hc _ IH|c1 c2 gap hi lo bs s H1 H2 Hgap _ IH].
  - reflexivity.
  - simpl remove_spaces. destruct (Ascii.eqb c " "); [exact IH|].
    simpl fromhex. by rewrite Hc.
  - simpl remove_spaces.
    destruct (hex_digit_not_space _ _ H1) as [_ ->].
    rewrite (remove_spaces_gap _ _ Hgap). simpl remove_spaces.
    destruct (hex_digit_not_space _ _ H2) as [_ ->].
    rewrite (fromhex_pair _ _ _ _ _ H1 H2), IH. reflexivity.
Qed.

(** Only a text of the shape decodes. *)
Lemma hex_shape_fromhex (n : nat) : ∀ s bs,
  (String.length s ≤ n)%nat → fromhex (remove_spaces s) = Ret bs → hex_shape bs s.
Proof.
  induction n as [|n IH]; intros s bs Hlen Hdec.
  - destruct s; simpl in *; [|lia]. injection Hdec as <-. constructor.
  - destruct s as [|c rest]; [injection Hdec as <-; constructor|].
    simpl in Hlen. simpl remove_spaces in Hdec.
    destruct (Ascii.eqb_spec c " ") as [->|Hne].
    { apply hex_shape_gap; [reflexivity|]. apply IH; [lia | exact Hdec]. }
    simpl fromhex in Hdec. destruct (is_space c) eqn:Hs.
    { apply hex_shape_gap; [exact Hs|]. apply IH; [lia | exact Hdec]. }
    destruct (hex_digit c) as [hi|] eqn:H1; [|destruct (remove_spaces rest); discriminate].
    destruct (remove_spaces rest) as [|c2 u] eqn:Hrest; [discriminate|].
    destruct (hex_digit c2) as [lo|] eqn:H2; [|discriminate].
    destruct (remove_spaces_head _ _ _ Hrest) as (gap & t2 & -> & Hgap & Hu & Hshort).
    subst u. destruct (fromhex (remove_spaces t2)) as [bs'|e] eqn:Htail; [|discriminate].
    injection Hdec as <-.
    apply hex_shape_pair; [exact H1 | exact H2 | exact Hgap|].
    apply IH; [lia | exact Htail].
Qed.

(** A list converts exactly when each element stands for a byte. *)
Lemma bytearray_values items : ∀ bs,
  bytearray items = Ret bs ↔ Forall2 byte_value items bs.
Proof.
  induction items as [|j rest IH]; intros bs; simpl.
  - split; [intros [= <-]; constructor | by inversion 1].
  - split.
    + destruct (byte_of_json j) as [b|e] eqn:Hb; [|discriminate]. simpl.
      destruct (bytearray rest) as [bs'|e] eqn:Hrest; [|discriminate]. simpl.
      intros [= <-]. constructor; [|by apply IH].
      destruct j; simpl in Hb; try discriminate.
      * injection Hb as <-. constructor.
      * destruct ((0 <=? z)%Z && (z <? 256)%Z) eqn:Hz; [|discriminate].
        injection Hb as <-. constructor.
        apply andb_true_iff in Hz as [Hlo Hhi].
        apply Z.leb_le in Hlo. apply Z.ltb_lt in Hhi. unfold is_byte. lia.
    + inversion 1 as [|j' b rest' bs' Hj Hrest]; subst.
      apply IH in Hrest. rewrite Hrest.
      destruct Hj as [z Hz|b']; simpl; [|reflexivity].
      unfold is_byte in Hz.
      replace ((0 <=? z)%Z && (z <? 256)%Z) with true; [reflexivity|].
      symmetry. apply andb_true_iff. split; [apply Z.leb_le | apply Z.ltb_lt]; lia.
Qed.

(** The first device of the table with the event name is the one the
    look-up returns. *)
Lemma find_device_first (before after : list MidiDevice) (target : MidiDevice) ev :
  Forall (fun d => event_name d ≠ ev) before → event_name target = ev →
  find_device (before ++ target :: after)%list (JStr ev) = Some target.
Proof.
  intros Hbefore Htarget. induction Hbefore as [|d before Hd _ IH]; simpl.
  - by rewrite Htarget, String.eqb_refl.
  - apply String.eqb_neq in Hd. by rewrite Hd.
Qed.

Variable send_message_ok : midi_handle → list Z → bool.

(** C7, amended: a send to the first device of the table with the event
    name, when that device has a live output handle.  Data that writes a
    message (a string that, spaces removed, is pairs of hexadecimal
    digits with optional white space around the pairs, or a list whose
    elements are integers 0-255 or booleans) is handed to the port as
    that message: when the port takes it, it is transmitted verbatim and
    the call returns success, and when the port raises, the call returns
    failure and nothing is transmitted.  Data of any other shape is
    rejected with failure and nothing is transmitted: so an odd number
    of digits, a character that is neither digit nor white space, a list
    with an element that is no byte value, and data that is neither a
    string nor a list.  The text ["90 3C 40"] writes [0x90, 0x3C, 0x40]. *)
Theorem send_midi_api_bytes (before after : list MidiDevice) (target : MidiDevice)
    (ev : string) (out : midi_handle) :
  Forall (fun d => event_name d ≠ ev) before →
  event_name target = ev →
  midi_out target = Some out →
  let send := send_midi_api send_message_ok (before ++ target :: after)%list (JStr ev) in
  (∀ data msg, data_bytes data msg →
     send data = if send_message_ok out msg then (true, [(out, msg)]) else (false, [])) ∧
  (∀ data, (∀ msg, ¬ data_bytes data msg) → send data = (false, [])) ∧
  data_bytes (JStr "90 3C 40") [144; 60; 64]%Z ∧
  (∀ s, str_forall is_hex (remove_spaces s) = true →
        Nat.odd (String.length (remove_spaces s)) = true →
        send (JStr s) = (false, [])) ∧
  (∀ s, str_exists foreign s = true → send (JStr s) = (false, [])) ∧
  (∀ items, Exists (fun j => byte_like j = false) items →
            send (JArr items) = (false, [])) ∧
  (∀ data, other_shape data = true → send data = (false, [])).
Proof.
  intros Hbefore Htarget Hout send. subst send. unfold send_midi_api.
  rewrite (find_device_first _ _ _ _ Hbefore Htarget), Hout.
  split; [|split; [|split; [|split; [|split; [|split]]]]].
  - intros data msg [s bs Hshape | items bs Hvalues].
    + by rewrite (fromhex_hex_shape _ _ Hshape).
    + apply bytearray_values in Hvalues. by rewrite Hvalues.
  - intros data Hnone. destruct data as [| | | |s|items|]; try reflexivity.
    + destruct (fromhex (remove_spaces s)) as [msg|e] eqn:Hdec; [|reflexivity].
      exfalso. apply (Hnone msg). constructor.
      by apply (hex_shape_fromhex (String.length s)).
    + destruct (bytearray items) as [msg|e] eqn:Hdec; [|reflexivity].
      exfalso. apply (Hnone msg). constructor. by apply bytearray_values.
  - constructor. apply (hex_shape_fromhex (String.length "90 3C 40")); [lia | reflexivity].
  - intros s Hall Hodd. by rewrite (fromhex_odd _ _ (le_n _) Hall Hodd).
  - intros s Hforeign.
    by rewrite (fromhex_foreign _ _ (le_n _) (remove_spaces_foreign _ Hforeign)).
  - intros items Hunlike. by destruct (bytearray_unlike _ Hunlike) as [e ->].
  - intros data Hshape. by destruct data.
Qed.
End MidiOutput.

(** ** MIDI load *)

Section MidiLoad.
Import Host MIDI.
Variable open_in_ok : nat → bool.
Variable open_out_ok : nat → bool.

Lemma fkey_inj name i j : fkey name i = fkey name j → i = j.
Proof.
  unfold fkey. intros Heq. apply (inj (String.app name)) in Heq.
  by apply (inj pretty) in Heq.
Qed.

Lemma get_set_same (st : settings) key v :
  obs_data_get_string (obs_data_set_string st key v) key = v.
Proof. unfold obs_data_get_string, obs_data_set_string. by rewrite lookup_insert_eq. Qed.

Lemma get_set_other (st : settings) key key' v :
  key ≠ key' →
  obs_data_get_string (obs_data_set_string st key v) key' = obs_data_get_string st key'.
Proof.
  intros Hne. unfold obs_data_get_string, obs_data_set_string.
  by rewrite lookup_insert_ne.
Qed.

Lemma saved_port_mark_other (st : settings) idxs i :
  i ∉ idxs → saved_port (mark_missing st idxs) i = saved_port st i.
Proof.
  revert st. induction idxs as [|j rest IH]; intros st Hnot; [reflexivity|].
  apply not_elem_of_cons in Hnot as [Hne Hrest]. simpl.
  rewrite (IH _ Hrest). unfold saved_port. apply get_set_other.
  intros Heq. apply fkey_inj in Heq. congruence.
Qed.

Lemma saved_port_mark (st : settings) idxs i :
  NoDup idxs → i ∈ idxs → saved_port (mark_missing st idxs) i = "---".
Proof.
  revert st. induction idxs as [|j rest IH]; intros st Hnd Hin.
  - by apply elem_of_nil in Hin.
  - apply NoDup_cons in Hnd as [Hj Hnd]. simpl.
    apply elem_of_cons in Hin as [->|Hin].
    + rewrite (saved_port_mark_other _ _ _ Hj). apply get_set_same.
    + by apply IH.
Qed.

Lemma set_settings_same w : set_settings w (script_settings w) = w.
Proof. by destruct w. Qed.

(** When none of the indices is found, the loop only rewrites their
    saved port names. *)
Lemma load_devices_all_missing idxs : ∀ w,
  NoDup idxs →
  (∀ i, i ∈ idxs → port_found (script_settings w) (midi_ports_in w) i = false) →
  load_devices idxs w = (set_settings w (mark_missing (script_settings w) idxs), Ret tt).
Proof.
  induction idxs as [|i rest IH]; intros w Hnd Hmiss.
  - simpl. by rewrite set_settings_same.
  - apply NoDup_cons in Hnd as [Hi Hnd]. simpl.
    pose proof (Hmiss i (list_elem_of_here _ _)) as Hfound.
    unfold port_found, saved_port in Hfound. rewrite Hfound.
    rewrite IH; [reflexivity | exact Hnd |].
    intros j Hj. simpl.
    etrans; [|exact (Hmiss j (list_elem_of_further _ _ _ Hj))].
    unfold port_found, saved_port. f_equal. apply get_set_other.
    intros Heq. apply fkey_inj in Heq. congruence.
Qed.

Lemma filter_all_false {A} (f : A → bool) l :
  (∀ x, x ∈ l → f x = false) → List.filter f l = [].
Proof.
  induction l as [|x l IH]; intros Hall; [reflexivity|]. simpl.
  rewrite (Hall x (list_elem_of_here _ _)). apply IH.
  intros y Hy. apply Hall. by right.
Qed.

Lemma filter_all_true {A} (f : A → bool) l :
  (∀ x, x ∈ l → f x = true) → List.filter f l = l.
Proof.
  induction l as [|x l IH]; intros Hall; [reflexivity|]. simpl.
  rewrite (Hall x (list_elem_of_here _ _)). f_equal. apply IH.
  intros y Hy. apply Hall. by right.
Qed.

Lemma forallb_negb_map {A} (f : A → bool) l :
  forallb negb (map f l) = true → ∀ x, x ∈ l → f x = false.
Proof.
  induction l as [|y l IH]; intros Hall x Hx; [by apply elem_of_nil in Hx|].
  simpl in Hall. apply andb_true_iff in Hall as [Hy Hall].
  apply elem_of_cons in Hx as [->|Hx]; [by apply negb_true_iff in Hy | by apply IH].
Qed.

(** While found devices come first, the loop runs to its end: it appends
    the found devices and rewrites the port names of the others. *)
Lemma load_devices_found_first n : ∀ k w,
  length (midi_devices w) = k →
  found_first (map (port_found (script_settings w) (midi_ports_in w)) (seq k n)) = true →
  load_devices (seq k n) w =
    (set_settings
       (set_devices w
          (midi_devices w ++ loaded_table (script_settings w) (midi_ports_in w) (seq k n)))
       (mark_missing (script_settings w)
          (List.filter (fun i => negb (port_found (script_settings w) (midi_ports_in w) i))
             (seq k n))),
     Ret tt).
Proof.
  induction n as [|n IH]; intros k w Hlen Hff.
  - destruct w. simpl. unfold set_settings, set_devices, loaded_table. simpl.
    by rewrite app_nil_r.
  - change (seq k (S n)) with (k :: seq (S k) n) in *. simpl map in Hff.
    destruct (port_found (script_settings w) (midi_ports_in w) k) eqn:Hfound.
    + simpl in Hff. simpl load_devices.
      pose proof Hfound as Hin. unfold port_found, saved_port in Hin. rewrite Hin.
      rewrite (list_lookup_middle (midi_devices w) [] _ k (eq_sym Hlen)).
      rewrite IH.
      * unfold loaded_table. simpl List.filter. rewrite Hfound. simpl.
        unfold set_settings, set_devices. simpl. by rewrite <- app_assoc.
      * simpl. rewrite length_app. simpl. lia.
      * exact Hff.
    + simpl in Hff.
      assert (Hmiss : ∀ i, i ∈ k :: seq (S k) n →
                port_found (script_settings w) (midi_ports_in w) i = false).
      { intros i Hi. apply elem_of_cons in Hi as [->|Hi]; [exact Hfound|].
        by apply (forallb_negb_map _ _ Hff). }
      rewrite load_devices_all_missing; [| apply (NoDup_seq k (S n)) | exact Hmiss].
      unfold loaded_table. rewrite (filter_all_false _ _ Hmiss).
      rewrite filter_all_true.
      * destruct w. unfold set_settings, set_devices. simpl. by rewrite app_nil_r.
      * intros i Hi. by rewrite (Hmiss i Hi).
Qed.

Lemma start_device_name ports d :
  device_name (start_midi_device open_in_ok open_out_ok ports d) = device_name d.
Proof.
  unfold start_midi_device. destruct (port_name d) as [name|]; [|reflexivity].
  destruct (negb (str_truthy name)); [reflexivity|].
  destruct (list_index ports name) as [idx|]; [|reflexivity].
  destruct (open_in_ok idx); [destruct (open_out_ok idx)|]; reflexivity.
Qed.

End MidiLoad.

(** ** The file routes *)

Lemma length_app_str s t : String.length (s +:+ t) = (String.length s + String.length t)%nat.
Proof. induction s as [|c s IH]; [reflexivity|]. rewrite app_cons. simpl. by rewrite IH. Qed.

Lemma substring_whole s : String.substring 0 (String.length s) s = s.
Proof. induction s as [|c s IH]; [reflexivity|]. simpl. by rewrite IH. Qed.

Lemma substring_after s t :
  String.substring (String.length s) (String.length t) (s +:+ t) = t.
Proof.
  induction s as [|c s IH]; [apply substring_whole|]. rewrite app_cons. exact IH.
Qed.

(** After the suffix is appended the name ends with it. *)
Lemma endswith_app s suf : endswith (s +:+ suf) suf = true.
Proof.
  unfold endswith. rewrite length_app_str.
  replace (String.length suf <=? String.length s + String.length suf)%nat with true
    by (symmetry; apply Nat.leb_le; lia).
  replace (String.length s + String.length suf - String.length suf)%nat
    with (String.length s) by lia.
  rewrite substring_after. apply String.eqb_refl.
Qed.

Lemma app_nonempty s t : t ≠ "" → s +:+ t ≠ "".
Proof.
  intros Ht Heq. apply (f_equal String.length) in Heq. rewrite length_app_str in Heq.
  destruct t; [done|]. simpl in Heq. lia.
Qed.

Section FileRoutes.
Import PosixPath HTTP.
Context {FS : Type} `{FileSystem FS}.
Variable SCRIPT_DIR : string.
Variable dumps_indent : json → string.
Variable udp_send_ok : OSC.udp_client → json → json → bool.
Variable static_GET : string → gmap string string → FS → outcome FS.

(** A path that fails the check of its route is refused with 403 and no
    filesystem call is made. *)
Lemma file_list_refused folder (fs : FS) :
  folder ≠ "" →
  startswith (normpath (join SCRIPT_DIR folder)) SCRIPT_DIR = false →
  file_list SCRIPT_DIR (Some folder) fs = Outcome (Response 403 (ErrorBody AccessDenied)) fs [] [].
Proof.
  intros Hne Hout. apply str_truthy_true in Hne. unfold file_list.
  by rewrite Hne, Hout.
Qed.

Lemma file_get_refused folder filename (fs : FS) :
  folder ≠ "" → filename ≠ "" →
  startswith (normpath (join (join SCRIPT_DIR folder) filename)) SCRIPT_DIR = false →
  file_get SCRIPT_DIR (Some folder) (Some filename) fs =
  Outcome (Response 403 (ErrorBody AccessDenied)) fs [] [].
Proof.
  intros Hf Hn Hout. apply str_truthy_true in Hf, Hn. unfold file_get.
  by rewrite Hf, Hn, Hout.
Qed.


Context `{!FileSystemLaws FS}.

(** C8, amended: a save whose body carries a non-empty folder, a
    non-empty filename and data other than null, whose directory and
    file both normalize to a path that begins with the root, and for
    which creating the directory (when it does not exist) and writing the
    file raise no error, answers 200 with the path it wrote; the name it
    wrote ends in [.json]; the file holds the pretty-printed data; and a
    following get of the same folder and the written name answers 200
    with exactly that content. *)
Theorem save_then_get_round_trip members folder filename data reg details (fs : FS) :
  assoc_get "folder" members = Some (JStr folder) → folder ≠ "" →
  assoc_get "filename" members = Some (JStr filename) → filename ≠ "" →
  assoc_get "data" members = Some data → data ≠ JNull →
  let saved_name := if endswith filename ".json" then filename else filename +:+ ".json" in
  let target_dir := join SCRIPT_DIR folder in
  let full_path := join target_dir saved_name in
  startswith (normpath target_dir) SCRIPT_DIR = true →
  startswith (normpath full_path) SCRIPT_DIR = true →
  (fs_exists fs target_dir = false → returns (fs_makedirs fs target_dir)) →
  (∀ fs1, fs_exists fs target_dir = true ∧ fs1 = fs ∨
          fs_exists fs target_dir = false ∧ fs_makedirs fs target_dir = Ret fs1 →
          returns (fs_write fs1 full_path (dumps_indent data))) →
  let saving := do_POST SCRIPT_DIR dumps_indent udp_send_ok "/api/file/save"
                  (Ret (JObj members)) reg fs in
  out_response saving =
    Response 200 (JsonBody (JObj [("success", JBool true); ("path", JStr full_path)])) ∧
  endswith saved_name ".json" = true ∧
  fs_read (out_fs saving) full_path = Ret (dumps_indent data) ∧
  out_response
    (do_GET SCRIPT_DIR static_GET "/api/file/get"
       {[ "folder" := folder; "filename" := saved_name ]} details (out_fs saving))
  = Response 200 (RawBody (dumps_indent data)).
Proof.
  intros Hf Hfne Hn Hnne Hd Hdne saved_name target_dir full_path Hdir Hfull Hmk Hwr saving.
  assert (Hsuffix : endswith saved_name ".json" = true).
  { subst saved_name. destruct (endswith filename ".json") eqn:He; [exact He|].
    apply endswith_app. }
  assert (Hname : str_truthy saved_name = true).
  { apply str_truthy_true. subst saved_name.
    destruct (endswith filename ".json"); [exact Hnne | by apply app_nonempty]. }
  assert (Hget : ∀ fs1 fs2, fs_write fs1 full_path (dumps_indent data) = Ret fs2 →
    fs_read fs2 full_path = Ret (dumps_indent data) ∧
    out_response
      (do_GET SCRIPT_DIR static_GET "/api/file/get"
         {[ "folder" := folder; "filename" := saved_name ]} details fs2)
    = Response 200 (RawBody (dumps_indent data))).
  { intros fs1 fs2 Hw. pose proof (read_after_write _ _ _ _ Hw) as Hread.
    pose proof (exists_after_write _ _ _ _ Hw) as Hex.
    split; [exact Hread|]. unfold do_GET. simpl String.eqb. cbv iota.
    rewrite lookup_insert_eq, lookup_insert_ne, lookup_singleton_eq by done.
    unfold file_get. apply str_truthy_true in Hfne. rewrite Hfne, Hname. simpl.
    fold target_dir. fold full_path. by rewrite Hfull, Hex, Hread. }
  subst saving.
  change (do_POST SCRIPT_DIR dumps_indent udp_send_ok "/api/file/save"
            (Ret (JObj members)) reg fs)
    with (file_save SCRIPT_DIR dumps_indent (Ret (JObj members)) fs).
  unfold file_save, or_500, py_get. rewrite Hf, Hn, Hd. simpl default.
  rewrite (truthy_str_nonempty _ Hfne), (truthy_str_nonempty _ Hnne).
  replace (is_none data) with false by (by destruct data).
  simpl. fold saved_name. fold target_dir. fold full_path. rewrite Hdir. simpl.
  destruct (fs_exists fs target_dir) eqn:Hex; simpl.
  - destruct (Hwr fs (or_introl (conj eq_refl eq_refl))) as [fs2 Hw]. rewrite Hw. simpl.
    split; [reflexivity|]. split; [exact Hsuffix|]. by apply (Hget fs).
  - destruct (Hmk eq_refl) as [fs1 Hmade]. rewrite Hmade.
    destruct (Hwr fs1 (or_intror (conj eq_refl Hmade))) as [fs2 Hw]. rewrite Hw. simpl.
    split; [reflexivity|]. split; [exact Hsuffix|]. by apply (Hget fs1).
Qed.
End FileRoutes.

(** ** The properties at concrete inputs *)

Import Examples.

#[global] Instance map_fs_laws : HTTP.FileSystemLaws HTTP.map_fs.
Proof.
  split; intros fs fs' p content Hw; simpl in Hw; injection Hw as <-; simpl.
  - rewrite lookup_insert_eq. reflexivity.
  - by rewrite lookup_insert_eq.
Qed.

Lemma osc_send_status_witness :
  HTTP.out_response
    (HTTP.do_POST root dumps_indent (fun _ _ _ => true) "/api/osc/send"
       (Ret (JObj osc_body)) registered empty_fs)
  = HTTP.Response 200 (HTTP.JsonBody (JObj [("success", JBool true)])).
Proof.
  refine (proj2 (proj2 (osc_send_status root dumps_indent (fun _ _ _ => true)
            osc_body "osc_event_0" (JStr "/fader1") registered empty_fs
            eq_refl _ eq_refl eq_refl)) _ eq_refl _).
  - discriminate.
  - exists (OSC.to_dict fader_client). split; [left | reflexivity].
Defined.

Lemma osc_send_success_ignores_transport_witness :
  HTTP.out_response
    (HTTP.do_POST root dumps_indent (fun _ _ _ => false) "/api/osc/send"
       (Ret (JObj osc_body)) registered empty_fs)
  = HTTP.Response 200 (HTTP.JsonBody (JObj [("success", JBool true)]))
  ∧ HTTP.out_datagrams
      (HTTP.do_POST root dumps_indent (fun _ _ _ => true) "/api/osc/send"
         (Ret (JObj osc_body)) registered empty_fs) = [].
Proof.
  assert (Hknown : ∃ c, c ∈ OSC.clients (OSC.Bridge [OSC.to_dict fader_client]) ∧
                        OSC.cd_event_name c = "osc_event_0").
  { exists (OSC.to_dict fader_client). split; [left | reflexivity]. }
  assert (Hne : "osc_event_0" ≠ "") by discriminate.
  destruct (osc_send_success_ignores_transport root dumps_indent
              osc_body "osc_event_0" (JStr "/fader1") registered empty_fs _
              eq_refl Hne eq_refl eq_refl eq_refl Hknown) as (Hresp & Hsock & _).
  split; [apply Hresp | apply (Hsock _ fader_client); reflexivity].
Defined.

Lemma send_midi_api_bytes_witness :
  MIDI.send_midi_api (fun _ msg => negb (bool_decide (msg = []))) [keys_device; bound_device]
    (JStr "midiDevice_0") (JStr "90 3C 40")
  = (true, [(MIDI.MidiHandle 0 true, [144; 60; 64]%Z)]).
Proof.
  assert (Hbefore : Forall (fun d => MIDI.event_name d ≠ "midiDevice_0") [keys_device])
    by (constructor; [discriminate | constructor]).
  destruct (send_midi_api_bytes (fun _ msg => negb (bool_decide (msg = [])))
              [keys_device] [] bound_device "midiDevice_0" (MIDI.MidiHandle 0 true)
              Hbefore eq_refl eq_refl) as (Hsend & _ & Htext & _).
  exact (Hsend _ _ Htext).
Defined.

(** C7 as stated fails: the text ["9 0"] is not pairs of digits with
    separators between them, and a list that holds [true] is no sequence
    of byte values 0-255, yet both are transmitted, as [0x90] and as
    [0x01], and the call returns success. *)
Lemma send_midi_api_accepts_other_shapes :
  let send := MIDI.send_midi_api (fun _ _ => true) [bound_device] (JStr "midiDevice_0") in
  (∀ bs, ¬ hex_text bs "9 0") ∧
  send (JStr "9 0") = (true, [(MIDI.MidiHandle 0 true, [144]%Z)]) ∧
  send (JArr [JBool true]) = (true, [(MIDI.MidiHandle 0 true, [1]%Z)]).
Proof.
  split; [|split; reflexivity].
  intros bs Htext. inversion Htext as [| |c1 c2 hi lo bs' s' Hhi Hlo]; subst.
  vm_compute in Hlo. discriminate.
Qed.

(** C6 as stated fails: with one configured device whose saved port is
    not enumerated, loading leaves the device table empty, so no stub was
    loaded, and the saved port name reads ["---"]. *)
Lemma script_load_skips_missing_device :
  let w := fst (MIDI.script_load (fun _ => true) (fun _ => true) (fun _ => true) (fun _ => true) one_missing
                  (Ret ["Keystation"]) (MIDI.initial ∅)) in
  port_found one_missing ["Keystation"] 0 = false ∧
  MIDI.midi_devices w = [] ∧
  saved_port (MIDI.script_settings w) 0 = "---".
Proof. vm_compute. repeat split. Qed.

(** A device that is not found before one that is: the look-up
    [midi_devices[i]] after the append raises [IndexError], and the load
    stops before the manager is registered. *)
Lemma script_load_missing_then_found_raises :
  let r := MIDI.script_load (fun _ => true) (fun _ => true) (fun _ => true) (fun _ => true) missing_then_found
             (Ret ["Launchpad"]) (MIDI.initial ∅) in
  snd r = Raise IndexError ∧ MIDI.midi_manager (fst r) = false.
Proof. vm_compute. split; reflexivity. Qed.

(** The reads of the second and third byte are guarded by the length,
    the read of the status byte is not: on a list of no byte, which is no
    MIDI message and which the port never delivers, it raises
    [IndexError]. *)
Lemma midi_input_callback_empty_message_raises :
  MIDI.midi_input_callback (fun _ => true) (fun _ => "") (fun _ => true) bound_device []
  = Raise IndexError.
Proof. reflexivity. Qed.


(** C8 as stated fails: folder and filename resolve inside the root, the
    data is [null], and the save is refused with 400. *)
Lemma file_save_null_data_refused :
  startswith (PosixPath.normpath (PosixPath.join root "profiles")) root = true ∧
  startswith
    (PosixPath.normpath (PosixPath.join (PosixPath.join root "profiles") "scene.json"))
    root = true ∧
  HTTP.out_response
    (HTTP.do_POST root dumps_indent (fun _ _ _ => true) "/api/file/save"
       (Ret (JObj (save_body "scene" JNull))) registered empty_fs)
  = HTTP.Response 400 (HTTP.ErrorBody HTTP.MissingFolderFilenameData).
Proof. vm_compute. repeat split. Qed.

Lemma save_then_get_round_trip_witness :
  let saving := HTTP.do_POST root dumps_indent (fun _ _ _ => true) "/api/file/save"
                  (Ret (JObj (save_body "scene" (JObj [])))) registered empty_fs in
  HTTP.out_response saving =
    HTTP.Response 200
      (HTTP.JsonBody (JObj [("success", JBool true);
                            ("path", JStr "/opt/obs/profiles/scene.json")])) ∧
  HTTP.out_response
    (HTTP.do_GET root Scenarios.no_static "/api/file/get"
       {[ "folder" := "profiles"; "filename" := "scene.json" ]}
       HTTP.WSS_DETAILS_initial (HTTP.out_fs saving))
  = HTTP.Response 200 (HTTP.RawBody "{}").
Proof.
  assert (Hdata : JObj [] ≠ JNull) by discriminate.
  assert (Hfolder : "profiles" ≠ "") by discriminate.
  assert (Hname : "scene" ≠ "") by discriminate.
  destruct (save_then_get_round_trip root dumps_indent (fun _ _ _ => true)
              Scenarios.no_static
              (save_body "scene" (JObj [])) "profiles" "scene" (JObj []) registered
              HTTP.WSS_DETAILS_initial empty_fs
              eq_refl Hfolder eq_refl Hname eq_refl Hdata eq_refl eq_refl)
    as (Hresp & _ & _ & Hget).
  - intros _. eexists. reflexivity.
  - intros fs1 _. eexists. reflexivity.
  - split; [exact Hresp | exact Hget].
Defined.

(** C1, at an input where the code departs from it: a save into the
    folder [profiles] of the root [/opt/obs] with the filename
    [../../escape].  The path written normalizes to [/opt/escape.json],
    which does not begin with the root; yet on every filesystem the answer
    is not 403 and the first thing done is a filesystem call, and on the
    example filesystem the answer is 200 and the file is written. *)
Theorem file_save_filename_escapes :
  let body := Ret (JObj (save_body "../../escape" (JObj []))) in
  let written := "/opt/obs/profiles/../../escape.json" in
  PosixPath.normpath written = "/opt/escape.json" ∧
  startswith (PosixPath.normpath written) root = false ∧
  (∀ (FS : Type) (Hfs : HTTP.FileSystem FS) (fs : FS) udp_send_ok reg,
     let o := HTTP.do_POST root dumps_indent udp_send_ok "/api/file/save" body reg fs in
     HTTP.status (HTTP.out_response o) ≠ 403%Z ∧
     head (HTTP.out_calls o) = Some (HTTP.CallExists "/opt/obs/profiles")) ∧
  (let o := HTTP.do_POST root dumps_indent (fun _ _ _ => true) "/api/file/save" body
              registered empty_fs in
   HTTP.out_response o =
     HTTP.Response 200 (HTTP.JsonBody (JObj [("success", JBool true); ("path", JStr written)])) ∧
   HTTP.files (HTTP.out_fs o) !! written = Some "{}" ∧
   HTTP.out_calls o =
     [HTTP.CallExists "/opt/obs/profiles"; HTTP.CallMakedirs "/opt/obs/profiles";
      HTTP.CallOpenWrite written]).
Proof.
  split; [reflexivity|]. split; [reflexivity|]. split.
  - intros FS Hfs fs udp_send_ok reg o. subst o.
    change (HTTP.do_POST root dumps_indent udp_send_ok "/api/file/save"
              (Ret (JObj (save_body "../../escape" (JObj [])))) reg fs)
      with (HTTP.file_save root dumps_indent
              (Ret (JObj (save_body "../../escape" (JObj [])))) fs).
    unfold HTTP.file_save, HTTP.or_500. simpl py_get. cbv beta iota.
    change (HTTP.join_root root (JStr "profiles")) with (Ret "/opt/obs/profiles").
    cbv beta iota.
    change (HTTP.with_suffix (JStr "../../escape")) with (Ret "../../escape.json").
    cbv beta iota zeta.
    change (PosixPath.join "/opt/obs/profiles" "../../escape.json")
      with "/opt/obs/profiles/../../escape.json".
    change (startswith (PosixPath.normpath "/opt/obs/profiles") root) with true.
    simpl negb. cbv iota.
    destruct (HTTP.fs_exists fs "/opt/obs/profiles"); simpl negb; cbv iota.
    + destruct (HTTP.fs_write fs _ _); simpl; by split.
    + destruct (HTTP.fs_makedirs fs _); [|simpl; by split].
      destruct (HTTP.fs_write _ _ _); simpl; by split.
  - vm_compute. repeat split.
Qed.

(** The check is a test on characters, so a sibling directory whose name
    begins like the root passes it: listing [../obs_evil] is not refused
    and the filesystem is consulted for [/opt/obs_evil]. *)
Lemma file_list_sibling_passes (FS : Type) (Hfs : HTTP.FileSystem FS) (fs : FS) :
  let o := HTTP.file_list root (Some "../obs_evil") fs in
  PosixPath.normpath (PosixPath.join root "../obs_evil") = "/opt/obs_evil" ∧
  HTTP.status (HTTP.out_response o) ≠ 403%Z ∧
  head (HTTP.out_calls o) = Some (HTTP.CallExists "/opt/obs/../obs_evil").
Proof.
  split; [reflexivity|]. unfold HTTP.file_list.
  change (str_truthy "../obs_evil") with true.
  change (PosixPath.join root "../obs_evil") with "/opt/obs/../obs_evil".
  change (startswith (PosixPath.normpath "/opt/obs/../obs_evil") root) with true.
  simpl negb. cbv iota.
  destruct (HTTP.fs_exists fs _); simpl; [|by split].
  destruct (HTTP.fs_listdir fs _); simpl; by split.
Qed.

(** * Further properties of the code *)

(** ** What the routes leave untouched *)

(** Splits on the scrutinee of the first [match] or [if] of the goal. *)
Ltac split_match :=
  match goal with
  | |- context [match ?x with _ => _ end] => destruct x eqn:?
  end.

Section RouteInvariants.
Import PosixPath HTTP.
Context {FS : Type} `{FileSystem FS}.
Variable SCRIPT_DIR : string.
Variable dumps_indent : json → string.
Variable udp_send_ok : OSC.udp_client → json → json → bool.
Variable static_GET : string → gmap string string → FS → outcome FS.

Lemma file_list_reads (folder : option string) (fs : FS) :
  let o := file_list SCRIPT_DIR folder fs in
  out_fs o = fs ∧ out_datagrams o = [] ∧
  forallb reads_only (out_calls o) = true ∧
  (refusal (status (out_response o)) = true → out_calls o = []).
Proof.
  unfold file_list. repeat split_match; simpl; repeat split; try reflexivity;
    intros; discriminate.
Qed.

Lemma file_get_reads (folder filename : option string) (fs : FS) :
  let o := file_get SCRIPT_DIR folder filename fs in
  out_fs o = fs ∧ out_datagrams o = [] ∧
  forallb reads_only (out_calls o) = true ∧
  (status (out_response o) = 400%Z ∨ status (out_response o) = 403%Z → out_calls o = []).
Proof.
  unfold file_get. repeat split_match; simpl; repeat split; try reflexivity;
    intros [?|?]; discriminate.
Qed.

(** X1: a GET to one of the three API routes never changes the
    filesystem and sends nothing; the only filesystem calls it makes are
    [exists], [listdir] and opening for reading; and an answer 400 or 403
    is given before any such call.  Every other path is handed to the
    static file handler of the base class, whose outcome is the outcome
    of the request. *)
Theorem do_GET_read_only path_path (query_params : gmap string string) details (fs : FS) :
  let o := do_GET SCRIPT_DIR static_GET path_path query_params details fs in
  (path_path = "/api/obswss" ∨ path_path = "/api/file/list" ∨ path_path = "/api/file/get" →
   out_fs o = fs ∧ out_datagrams o = [] ∧
   forallb reads_only (out_calls o) = true ∧
   (status (out_response o) = 400%Z ∨ status (out_response o) = 403%Z → out_calls o = [])) ∧
  (path_path ≠ "/api/obswss" → path_path ≠ "/api/file/list" → path_path ≠ "/api/file/get" →
   o = static_GET path_path query_params fs).
Proof.
  unfold do_GET. cbv zeta.
  destruct (String.eqb_spec path_path "/api/obswss") as [Hwss|Hwss].
  { split; [|done]. intros _. simpl. repeat split. }
  destruct (String.eqb_spec path_path "/api/file/list") as [Hlist|Hlist].
  { split; [|done]. intros _.
    destruct (file_list_reads (query_params !! "folder") fs) as (Hfs & Hdg & Hcalls & Hquiet).
    split; [exact Hfs|]. split; [exact Hdg|]. split; [exact Hcalls|].
    intros [Hs|Hs]; apply Hquiet; unfold refusal; rewrite Hs; reflexivity. }
  destruct (String.eqb_spec path_path "/api/file/get") as [Hget|Hget].
  { split; [|done]. intros _. apply file_get_reads. }
  split; [|done]. intros [?|[?|?]]; done.
Qed.

Lemma file_save_refusal body (fs : FS) :
  let o := file_save SCRIPT_DIR dumps_indent body fs in
  refusal (status (out_response o)) = true →
  out_calls o = [] ∧ out_fs o = fs ∧ out_datagrams o = [].
Proof.
  unfold file_save, or_500.
  repeat split_match; simpl; intros Hq; try discriminate Hq; repeat split.
Qed.

Lemma osc_send_no_files body reg (fs : FS) :
  let o := osc_send udp_send_ok body reg fs in
  out_calls o = [] ∧ out_fs o = fs ∧
  (refusal (status (out_response o)) = true → out_datagrams o = []).
Proof.
  unfold osc_send, or_500.
  repeat split_match; simpl; repeat split; intros Hq; try discriminate Hq; reflexivity.
Qed.

(** X2: a POST answered with 400, 403, 404 or 503 has made no filesystem
    call, has left the filesystem as it was and has sent no datagram. *)
Theorem do_POST_refusal_touches_nothing path body reg (fs : FS) :
  let o := do_POST SCRIPT_DIR dumps_indent udp_send_ok path body reg fs in
  refusal (status (out_response o)) = true →
  out_calls o = [] ∧ out_fs o = fs ∧ out_datagrams o = [].
Proof.
  unfold do_POST. cbv zeta.
  destruct (String.eqb path "/api/file/save"); [apply file_save_refusal|].
  destruct (String.eqb path "/api/osc/send").
  - intros Hq. destruct (osc_send_no_files body reg fs) as (Hcalls & Hfs & Hdg).
    repeat split; [exact Hcalls | exact Hfs | by apply Hdg].
  - simpl. intros _. repeat split.
Qed.

(** X3: the OSC route never touches the filesystem and the save route
    never sends a datagram, whatever the request is. *)
Theorem routes_keep_to_their_resource body reg (fs : FS) :
  out_calls (do_POST SCRIPT_DIR dumps_indent udp_send_ok "/api/osc/send" body reg fs) = [] ∧
  out_fs (do_POST SCRIPT_DIR dumps_indent udp_send_ok "/api/osc/send" body reg fs) = fs ∧
  out_datagrams (do_POST SCRIPT_DIR dumps_indent udp_send_ok "/api/file/save" body reg fs) = [].
Proof.
  change (do_POST SCRIPT_DIR dumps_indent udp_send_ok "/api/osc/send" body reg fs)
    with (osc_send udp_send_ok body reg fs).
  change (do_POST SCRIPT_DIR dumps_indent udp_send_ok "/api/file/save" body reg fs)
    with (file_save SCRIPT_DIR dumps_indent body fs).
  destruct (osc_send_no_files body reg fs) as (Hcalls & Hfs & _).
  split; [exact Hcalls|]. split; [exact Hfs|].
  unfold file_save, or_500. repeat split_match; reflexivity.
Qed.
End RouteInvariants.

(** ** The file routes, route by route *)

Lemma substring_split (k : nat) : ∀ s,
  (k ≤ String.length s)%nat →
  s = String.substring 0 k s +:+ String.substring k (String.length s - k) s.
Proof.
  induction k as [|k IH]; intros s Hk.
  - rewrite Nat.sub_0_r, substring_whole. by destruct s.
  - destruct s as [|c s]; simpl in Hk; [lia|].
    simpl. rewrite app_cons. f_equal. apply IH. lia.
Qed.

(** [endswith] is the suffix test. *)
Lemma endswith_ends s suf : endswith s suf = true ↔ ends_with s suf.
Proof.
  split.
  - unfold endswith. destruct (Nat.leb_spec (String.length suf) (String.length s)) as [Hle|];
      [|discriminate].
    intros Heq. apply String.eqb_eq in Heq.
    exists (String.substring 0 (String.length s - String.length suf) s).
    pose proof (substring_split (String.length s - String.length suf) s) as Hs.
    replace (String.length s - (String.length s - String.length suf))%nat
      with (String.length suf) in Hs by lia.
    rewrite Heq in Hs. apply Hs. lia.
  - intros [front ->]. apply endswith_app.
Qed.

Section FileRouteFacts.
Import PosixPath HTTP.
Context {FS : Type} `{FileSystem FS}.
Variable SCRIPT_DIR : string.
Variable dumps_indent : json → string.
Variable udp_send_ok : OSC.udp_client → json → json → bool.
Variable static_GET : string → gmap string string → FS → outcome FS.

(** X4: the list route and the get route refuse with 403, before any
    filesystem call, every request whose path does not begin with the root
    once it is normalized: the directory for a listing, the file for a
    get. *)
Theorem get_routes_refuse_outside_root folder filename details (fs : FS) :
  folder ≠ "" → filename ≠ "" →
  (startswith (normpath (join SCRIPT_DIR folder)) SCRIPT_DIR = false →
   do_GET SCRIPT_DIR static_GET "/api/file/list" {[ "folder" := folder ]} details fs =
   Outcome (Response 403 (ErrorBody AccessDenied)) fs [] []) ∧
  (startswith (normpath (join (join SCRIPT_DIR folder) filename)) SCRIPT_DIR = false →
   do_GET SCRIPT_DIR static_GET "/api/file/get" {[ "folder" := folder; "filename" := filename ]}
     details fs =
   Outcome (Response 403 (ErrorBody AccessDenied)) fs [] []).
Proof.
  intros Hfolder Hname. split; intros Hout; unfold do_GET; simpl String.eqb; cbv iota.
  - rewrite lookup_singleton_eq. by apply file_list_refused.
  - rewrite lookup_insert_eq, lookup_insert_ne, lookup_singleton_eq by done.
    by apply file_get_refused.
Qed.


Lemma py_get_members members k : py_get (JObj members) k = Ret (default JNull (assoc_get k members)).
Proof. reflexivity. Qed.

(** X6: a save whose body lacks the folder, the filename or the data (an
    absent member, an empty string or another false value for the two
    names, [null] for the data) is answered 400 and nothing is written. *)
Theorem file_save_missing_field members reg (fs : FS) :
  truthy (default JNull (assoc_get "folder" members)) = false ∨
  truthy (default JNull (assoc_get "filename" members)) = false ∨
  default JNull (assoc_get "data" members) = JNull →
  do_POST SCRIPT_DIR dumps_indent udp_send_ok "/api/file/save" (Ret (JObj members)) reg fs =
  Outcome (Response 400 (ErrorBody MissingFolderFilenameData)) fs [] [].
Proof.
  intros Hmissing.
  change (do_POST SCRIPT_DIR dumps_indent udp_send_ok "/api/file/save"
            (Ret (JObj members)) reg fs)
    with (file_save SCRIPT_DIR dumps_indent (Ret (JObj members)) fs).
  unfold file_save, or_500. rewrite !py_get_members.
  destruct Hmissing as [-> | [-> | ->]]; [reflexivity | |].
  - by rewrite orb_true_r.
  - simpl is_none. by rewrite orb_true_r.
Qed.


Lemma str_app_assoc s t u : (s +:+ t) +:+ u = s +:+ (t +:+ u).
Proof. induction s as [|c s IH]; [reflexivity|]. rewrite !app_cons. by rewrite IH. Qed.

Lemma join_ends a b : ends_with (join a b) b.
Proof.
  unfold join. destruct (startswith b "/" || negb (str_truthy a)).
  - by exists "".
  - destruct (endswith a "/"); [by exists a|].
    exists (a +:+ "/"). by rewrite str_app_assoc.
Qed.

Lemma ends_with_trans s t suf : ends_with s t → ends_with t suf → ends_with s suf.
Proof.
  intros [f1 ->] [f2 ->]. exists (f1 +:+ f2). by rewrite str_app_assoc.
Qed.

Lemma with_suffix_json filename name :
  with_suffix filename = Ret name → ends_with name ".json".
Proof.
  destruct filename; simpl; try discriminate. intros [= <-].
  destruct (endswith s ".json") eqn:He; [by apply endswith_ends | by exists s].
Qed.

Lemma member_present (members : list (string * json)) k v :
  default JNull (assoc_get k members) = v → v ≠ JNull → assoc_get k members = Some v.
Proof. destruct (assoc_get k members); simpl; congruence. Qed.

Lemma truthy_str s : truthy (JStr s) = true → s ≠ "".
Proof. simpl. intros Hs. by apply str_truthy_true. Qed.

(** X8: whenever a save is answered 200, the request body is an object
    whose [folder] and [filename] are non-empty strings and whose [data]
    is not null; the answer names the path [join(join(root, folder),
    name)], where [name] is the filename with [.json] appended unless it
    ends in it already; that path ends in [.json] and its directory
    passed the check; the directory was looked up, created when it did
    not exist, and the path opened for writing, in that order and with no
    other filesystem call; and the filesystem after the request is the
    result of writing the pretty-printed [data] of the body to that
    path. *)
Theorem file_save_success_sound body reg (fs : FS) :
  let o := do_POST SCRIPT_DIR dumps_indent udp_send_ok "/api/file/save" body reg fs in
  status (out_response o) = 200%Z →
  ∃ members folder filename data fs1,
    let name := if endswith filename ".json" then filename else filename +:+ ".json" in
    let dir := join SCRIPT_DIR folder in
    let path := join dir name in
    body = Ret (JObj members) ∧
    (assoc_get "folder" members = Some (JStr folder) ∧ folder ≠ "") ∧
    (assoc_get "filename" members = Some (JStr filename) ∧ filename ≠ "") ∧
    (assoc_get "data" members = Some data ∧ data ≠ JNull) ∧
    out_response o =
      Response 200 (JsonBody (JObj [("success", JBool true); ("path", JStr path)])) ∧
    ends_with path ".json" ∧
    startswith (normpath dir) SCRIPT_DIR = true ∧
    (fs_exists fs dir = true ∧ fs1 = fs ∧
       out_calls o = [CallExists dir; CallOpenWrite path] ∨
     fs_exists fs dir = false ∧ fs_makedirs fs dir = Ret fs1 ∧
       out_calls o = [CallExists dir; CallMakedirs dir; CallOpenWrite path]) ∧
    fs_write fs1 path (dumps_indent data) = Ret (out_fs o).
Proof.
  cbv zeta.
  change (do_POST SCRIPT_DIR dumps_indent udp_send_ok "/api/file/save" body reg fs)
    with (file_save SCRIPT_DIR dumps_indent body fs).
  unfold file_save, or_500.
  destruct body as [body|e]; [|discriminate].
  destruct body as [| | | | | |members]; try discriminate.
  rewrite !py_get_members.
  destruct (default JNull (assoc_get "folder" members)) as [| | | |folder| |] eqn:Hfolder.
  all: destruct (default JNull (assoc_get "filename" members)) as [| | | |filename| |]
         eqn:Hfilename.
  all: destruct (negb (truthy _) || negb (truthy _) || is_none _) eqn:Hguard;
         [discriminate|].
  all: try discriminate.
  apply orb_false_iff in Hguard as [Hguard Hdata_is].
  apply orb_false_iff in Hguard as [Hf Hn].
  apply negb_false_iff in Hf, Hn. apply truthy_str in Hf, Hn.
  set (data := default JNull (assoc_get "data" members)) in *.
  assert (Hnull : data ≠ JNull) by (intros Heq; rewrite Heq in Hdata_is; discriminate).
  pose proof (member_present members "folder" _ Hfolder ltac:(discriminate)) as Hfm.
  pose proof (member_present members "filename" _ Hfilename ltac:(discriminate)) as Hnm.
  pose proof (member_present members "data" data eq_refl Hnull) as Hdm.
  clearbody data. simpl join_root. simpl with_suffix. cbv beta iota.
  set (name := if endswith filename ".json" then filename else filename +:+ ".json").
  assert (Hends : ends_with (join (join SCRIPT_DIR folder) name) ".json").
  { eapply ends_with_trans; [apply join_ends|].
    apply (with_suffix_json (JStr filename)). reflexivity. }
  destruct (startswith (normpath (join SCRIPT_DIR folder)) SCRIPT_DIR) eqn:Hcheck;
    [|discriminate].
  simpl negb. cbv iota.
  destruct (fs_exists fs (join SCRIPT_DIR folder)) eqn:Hex; simpl negb; cbv iota.
  - destruct (fs_write fs _ _) as [fs2|e] eqn:Hw; [|discriminate].
    intros _. exists members, folder, filename, data, fs. fold name. simpl.
    split; [reflexivity|]. split; [by split|]. split; [by split|]. split; [by split|].
    split; [reflexivity|]. split; [exact Hends|]. split; [exact Hcheck|].
    split; [left; by repeat split | exact Hw].
  - destruct (fs_makedirs fs _) as [fs1|e] eqn:Hmk; [|discriminate].
    destruct (fs_write fs1 _ _) as [fs2|e] eqn:Hw; [|discriminate].
    intros _. exists members, folder, filename, data, fs1. fold name. simpl.
    split; [reflexivity|]. split; [by split|]. split; [by split|]. split; [by split|].
    split; [reflexivity|]. split; [exact Hends|]. split; [exact Hcheck|].
    split; [right; by repeat split | exact Hw].
Qed.
End FileRouteFacts.

(** ** The OSC manager *)

Section OSCBridge.
Import Host OSC.
Variable udp_send_ok : udp_client → json → json → bool.

(** [find_client] returns the first client of the name. *)
Lemma find_client_first clients name target :
  find_client clients name = Some target →
  ∃ before after,
    clients = (before ++ target :: after)%list ∧
    event_name target = name ∧
    Forall (fun c => event_name c ≠ name) before.
Proof.
  induction clients as [|c rest IH]; [discriminate|]. simpl.
  destruct (String.eqb_spec (event_name c) name) as [Heq|Hne].
  - intros [= <-]. exists [], rest. by repeat split.
  - intros Hfind. destruct (IH Hfind) as (before & after & -> & Hname & Hbefore).
    exists (c :: before), after. split; [reflexivity|]. split; [exact Hname|].
    by constructor.
Qed.

(** X9: [_bridge_send] hands at most one datagram to the transport; a
    datagram that leaves goes through the socket of the first client, in
    table order, that bears the event name of the dictionary, and carries
    the address and the arguments as they were given. *)
Theorem bridge_send_first_client (clients : list OSCClient) (client : client_dict)
    (address arguments : json) :
  let out := _bridge_send udp_send_ok clients client address arguments in
  (length out ≤ 1)%nat ∧
  ∀ dg, dg ∈ out →
    ∃ before target after sock,
      clients = (before ++ target :: after)%list ∧
      Forall (fun c => event_name c ≠ cd_event_name client) before ∧
      event_name target = cd_event_name client ∧
      _udp_client target = Some sock ∧
      dg = Datagram sock address arguments.
Proof.
  unfold _bridge_send, send.
  destruct (find_client clients (cd_event_name client)) as [target|] eqn:Hfind; simpl;
    [|split; [lia | intros dg Hdg; by apply elem_of_nil in Hdg]].
  destruct (_udp_client target) as [sock|] eqn:Hsock;
    [|split; [simpl; lia | intros dg Hdg; by apply elem_of_nil in Hdg]].
  destruct (udp_send_ok sock address arguments);
    [|split; [simpl; lia | intros dg Hdg; by apply elem_of_nil in Hdg]].
  split; [simpl; lia|]. intros dg Hdg. apply list_elem_of_singleton in Hdg as ->.
  destruct (find_client_first _ _ _ Hfind) as (before & after & Hsplit & Hname & Hbefore).
  by exists before, target, after, sock.
Qed.
End OSCBridge.

Section OSCSettings.
Import Host OSC HTTP.
Variable socket_ok : nat → bool.

Lemma find_client_dict_to_dict (cs : list OSCClient) (ev : string) :
  find_client_dict (map to_dict cs) (JStr ev) = to_dict <$> find_client cs ev.
Proof.
  induction cs as [|c rest IH]; [reflexivity|]. simpl.
  destruct (String.eqb (event_name c) ev); [reflexivity | exact IH].
Qed.

(** X10: [update_settings] builds as many clients as the settings count,
    and publishes their dictionaries in the same order, so the look-up
    the HTTP route makes in the published list and the look-up
    [_bridge_send] makes in the manager's list find the same client, or
    both find none. *)
Theorem update_settings_snapshot (st : settings) (ev : string) :
  let '(cs, published) := update_settings st socket_ok in
  length cs = Z.to_nat (obs_data_get_int st "number_of_clients") ∧
  clients published = map to_dict cs ∧
  find_client_dict (clients published) (JStr ev) = to_dict <$> find_client cs ev.
Proof.
  unfold update_settings. simpl. split; [|split].
  - by rewrite length_map, length_seq.
  - reflexivity.
  - apply find_client_dict_to_dict.
Qed.

Lemma new_client_event_name st i ok :
  event_name (new_client st i ok) =
  if str_truthy (obs_data_get_string st (fkey "event_name_" i))
  then obs_data_get_string st (fkey "event_name_" i)
  else fkey "osc_event_" i.
Proof. reflexivity. Qed.

Lemma fkey_nonempty name i : name ≠ "" → fkey name i ≠ "".
Proof.
  intros Hname Heq. unfold fkey in Heq. destruct name; [done|].
  rewrite app_cons in Heq. discriminate.
Qed.

(** X11: every client [update_settings] builds has a non-empty event
    name, and when no event name is configured the names given by
    position are pairwise different. *)
Theorem update_settings_event_names (st : settings) :
  let cs := fst (update_settings st socket_ok) in
  let count := Z.to_nat (obs_data_get_int st "number_of_clients") in
  (∀ c, c ∈ cs → event_name c ≠ "") ∧
  ((∀ i, (i < count)%nat → obs_data_get_string st (fkey "event_name_" i) = "") →
   NoDup (map event_name cs)).
Proof.
  unfold update_settings. simpl. split.
  - intros c Hc. apply list_elem_of_fmap in Hc as (i & -> & _).
    rewrite new_client_event_name.
    destruct (str_truthy _) eqn:Ht; [by apply str_truthy_true | by apply fkey_nonempty].
  - intros Hnone. rewrite map_map.
    apply NoDup_fmap_2_strong; [|apply NoDup_seq].
    intros i j Hi Hj. apply elem_of_seq in Hi, Hj.
    rewrite !new_client_event_name, !Hnone by lia. simpl.
    intros Heq. apply (inj (String.app "osc_event_")) in Heq. by apply (inj pretty) in Heq.
Qed.
End OSCSettings.

(** ** The OSC listener and the script callbacks *)

Section OSCLifecycle.
Import Host OSC.
Variable bind_ok : string → Z → bool.
Variable socket_ok : nat → bool.

Lemma close_one_held ip port : close_one ip port [(ip, port)] = [].
Proof. simpl. by rewrite String.eqb_refl, Z.eqb_refl. Qed.

Lemma peak_app open evs1 evs2 :
  peak open (evs1 ++ evs2) = Nat.max (peak open evs1) (peak (open_after open evs1) evs2).
Proof.
  revert open. induction evs1 as [|ev evs1 IH]; intros open; simpl.
  - destruct evs2; simpl; lia.
  - rewrite IH. unfold open_after. simpl. lia.
Qed.

Lemma open_after_app open evs1 evs2 :
  open_after open (evs1 ++ evs2) = open_after (open_after open evs1) evs2.
Proof. unfold open_after. by rewrite foldl_app. Qed.

Lemma stop_server_step (m : manager) :
  let '(m1, evs) := stop_server m in
  open_after (held m) evs = held m1 ∧ (peak (held m) evs ≤ 1)%nat ∧
  consistent m1 ∧ server m1 = None ∧ m_clients m1 = m_clients m.
Proof.
  unfold stop_server, held. destruct (server m) as [[ip port]|]; simpl.
  - unfold open_after. simpl. rewrite String.eqb_refl, Z.eqb_refl. simpl.
    repeat split; try reflexivity; lia.
  - repeat split; try reflexivity; lia.
Qed.

Lemma start_server_step ip port (m : manager) :
  let '(m1, evs) := start_server bind_ok ip port m in
  open_after (held m) evs = held m1 ∧ (peak (held m) evs ≤ 1)%nat ∧
  consistent m1 ∧ m_clients m1 = m_clients m.
Proof.
  unfold start_server. pose proof (stop_server_step m) as Hstop.
  destruct (stop_server m) as [m0 closed].
  destruct Hstop as (Hopen & Hpeak & Hcons & Hnone & Hclients).
  destruct (bind_ok ip port).
  - assert (Hheld : held m0 = []) by (unfold held; by rewrite Hnone).
    rewrite open_after_app, peak_app, Hopen, Hheld. simpl.
    split; [reflexivity|]. split; [lia|]. split; [by split | exact Hclients].
  - split; [exact Hopen|]. split; [exact Hpeak|]. split; [exact Hcons | exact Hclients].
Qed.

Lemma run_call_step (c : call) (w : osc_world) :
  let '(w1, evs) := run_call bind_ok socket_ok c w in
  open_after (held (MANAGER w)) evs = held (MANAGER w1) ∧
  (peak (held (MANAGER w)) evs ≤ 1)%nat ∧
  (consistent (MANAGER w) → consistent (MANAGER w1)).
Proof.
  destruct c as [st|st|ip port|]; unfold run_call.
  - unfold script_load.
    destruct (str_truthy _ && negb _).
    + pose proof (start_server_step (obs_data_get_string st "server_ip")
                    (obs_data_get_int st "server_port")
                    (MANAGER (script_update socket_ok st w))) as Hstart.
      destruct (start_server _ _ _ _) as [m evs]. simpl.
      destruct Hstart as (Hopen & Hpeak & Hcons & _).
      split; [exact Hopen|]. split; [exact Hpeak | intros _; exact Hcons].
    + simpl. split; [reflexivity|]. split; [|done].
      unfold held. destruct (server (MANAGER w)); simpl; lia.
  - simpl. split; [reflexivity|]. split; [|done].
    unfold held. destruct (server (MANAGER w)); simpl; lia.
  - pose proof (start_server_step ip port (MANAGER w)) as Hstart.
    destruct (start_server _ _ _ _) as [m evs]. simpl.
    destruct Hstart as (Hopen & Hpeak & Hcons & _).
    split; [exact Hopen|]. split; [exact Hpeak | intros _; exact Hcons].
  - unfold script_unload. pose proof (stop_server_step (MANAGER w)) as Hstop.
    destruct (stop_server _) as [m evs]. simpl.
    destruct Hstop as (Hopen & Hpeak & Hcons & _).
    split; [exact Hopen|]. split; [exact Hpeak | intros _; exact Hcons].
Qed.

Lemma run_calls_steps (cs : list call) : ∀ w,
  consistent (MANAGER w) →
  let '(w1, evs) := run_calls bind_ok socket_ok cs w in
  open_after (held (MANAGER w)) evs = held (MANAGER w1) ∧
  (peak (held (MANAGER w)) evs ≤ 1)%nat ∧
  consistent (MANAGER w1).
Proof.
  induction cs as [|c rest IH]; intros w Hcons; simpl.
  - split; [reflexivity|]. split; [|exact Hcons].
    unfold held. destruct (server _); simpl; lia.
  - pose proof (run_call_step c w) as Hstep.
    destruct (run_call bind_ok socket_ok c w) as [w1 evs1].
    destruct Hstep as (Hopen1 & Hpeak1 & Hcons1).
    pose proof (IH w1 (Hcons1 Hcons)) as Hrest.
    destruct (run_calls bind_ok socket_ok rest w1) as [w2 evs2].
    destruct Hrest as (Hopen2 & Hpeak2 & Hcons2).
    rewrite open_after_app, peak_app, Hopen1.
    split; [exact Hopen2|]. split; [lia | exact Hcons2].
Qed.

(** X12: through every sequence of loads, updates, restarts and unloads
    of the script, starting from the fresh module, never more than one
    listening socket is open at a time (a restart closes the old socket
    before it binds the new one); the socket open at the end is the one
    the manager holds; and [is_running] is set exactly when the manager
    holds a bound server. *)
Theorem osc_listener_invariant (cs : list call) :
  let '(w, evs) := run_calls bind_ok socket_ok cs initial_world in
  (peak [] evs ≤ 1)%nat ∧
  open_after [] evs = held (MANAGER w) ∧
  (is_running (MANAGER w) = true ↔ is_Some (server (MANAGER w))).
Proof.
  pose proof (run_calls_steps cs initial_world) as Hrun.
  destruct (run_calls bind_ok socket_ok cs initial_world) as [w evs].
  destruct Hrun as (Hopen & Hpeak & Hrunning & _); [by split|].
  split; [exact Hpeak|]. split; [exact Hopen|].
  rewrite Hrunning. apply bool_decide_eq_true.
Qed.

(** [script_update] rebuilds the client table and republishes the bridge
    without touching the listener. *)
Lemma script_update_keeps_listener (st : settings) (w : osc_world) :
  let w1 := script_update socket_ok st w in
  server (MANAGER w1) = server (MANAGER w) ∧
  server_thread (MANAGER w1) = server_thread (MANAGER w) ∧
  is_running (MANAGER w1) = is_running (MANAGER w) ∧
  run_call bind_ok socket_ok (ScriptUpdate st) w = (w1, []) ∧
  m_clients (MANAGER w1) = fst (update_settings st socket_ok) ∧
  published w1 = Some (snd (update_settings st socket_ok)).
Proof. by repeat split. Qed.
End OSCLifecycle.

(** ** From the OSC settings to the datagram *)

Section OSCEndToEnd.
Import Host OSC HTTP.
Context {FS : Type} `{FileSystem FS}.
Variable SCRIPT_DIR : string.
Variable dumps_indent : json → string.
Variable udp_send_ok : udp_client → json → json → bool.
Variable bind_ok : string → Z → bool.
Variable socket_ok : nat → bool.




(** X14: once the OSC script is unloaded, every POST to [/api/osc/send]
    that carries an event name and an address is answered 503, and
    nothing is sent. *)
Theorem osc_send_after_unload (w : osc_world) members ev address midi (fs : FS) :
  assoc_get "event_name" members = Some (JStr ev) → ev ≠ "" →
  assoc_get "address" members = Some address → truthy address = true →
  let w1 := fst (OSC.script_unload w) in
  do_POST SCRIPT_DIR dumps_indent udp_send_ok "/api/osc/send"
    (Ret (JObj members)) (registry_of w1 midi) fs
  = Outcome (Response 503 (ErrorBody OscScriptNotLoaded)) fs [] [].
Proof.
  intros Hev Hne Haddr Htruthy w1.
  change (do_POST SCRIPT_DIR dumps_indent udp_send_ok "/api/osc/send"
            (Ret (JObj members)) (registry_of w1 midi) fs)
    with (osc_send udp_send_ok (Ret (JObj members)) (registry_of w1 midi) fs).
  by rewrite (osc_send_well_formed udp_send_ok members ev address _ fs Hev Hne Haddr Htruthy).
Qed.
End OSCEndToEnd.

(** ** MIDI devices: binding, sending, unloading *)

Section MidiDevices.
Import Host MIDI.
Variable open_in_ok : nat → bool.
Variable open_out_ok : nat → bool.
Variable send_message_ok : midi_handle → list Z → bool.

Lemma list_index_lookup (ports : list string) name idx :
  list_index ports name = Some idx →
  ports !! idx = Some name ∧ ∀ j, (j < idx)%nat → ports !! j ≠ Some name.
Proof.
  revert idx. induction ports as [|p rest IH]; intros idx; [discriminate|]. simpl.
  destruct (String.eqb_spec p name) as [->|Hne].
  - intros [= <-]. split; [reflexivity | intros j Hj; lia].
  - destruct (list_index rest name) as [k|]; [|discriminate]. intros [= <-].
    destruct (IH k eq_refl) as [Hk Hfirst]. split; [exact Hk|].
    intros [|j] Hj; simpl; [congruence | apply Hfirst; lia].
Qed.

Lemma str_in_index (ports : list string) name :
  str_in name ports = true → ∃ idx, list_index ports name = Some idx.
Proof.
  induction ports as [|p rest IH]; [discriminate|]. simpl.
  destruct (String.eqb_spec p name) as [->|Hne]; [by exists 0%nat|].
  rewrite String.eqb_sym. destruct (String.eqb_spec p name); [done|]. simpl.
  intros Hin. destruct (IH Hin) as [idx ->]. by eexists.
Qed.

(** X15: a handle that [start_midi_device] gives to an unbound device is
    on the first enumerated port that bears the device's saved port name;
    an output handle is only made once the input port is open; and a
    device with no port name, or with one that is not enumerated, stays
    unbound. *)
Theorem start_midi_device_binds_saved_port (ports : list string) (d : MidiDevice) :
  midi_in d = None → midi_out d = None →
  let d' := start_midi_device open_in_ok open_out_ok ports d in
  (∀ h, midi_in d' = Some h ∨ midi_out d' = Some h →
     ∃ name, port_name d = Some name ∧ name ≠ "" ∧
       ports !! port_index h = Some name ∧
       ∀ j, (j < port_index h)%nat → ports !! j ≠ Some name) ∧
  (∀ h, midi_out d' = Some h → midi_in d' = Some (MidiHandle (port_index h) true)) ∧
  ((∀ name, port_name d = Some name → name = "" ∨ str_in name ports = false) →
   d' = d).
Proof.
  intros Hin Hout d'. subst d'. unfold start_midi_device.
  destruct (port_name d) as [name|] eqn:Hname.
  2: { rewrite Hin, Hout. split; [|split]; [intros h [?|?]; discriminate | discriminate | done]. }
  destruct (str_truthy name) eqn:Htruthy; simpl negb; cbv iota.
  2: { rewrite Hin, Hout. split; [|split]; [intros h [?|?]; discriminate | discriminate | done]. }
  apply str_truthy_true in Htruthy.
  destruct (list_index ports name) as [idx|] eqn:Hidx.
  2: { rewrite Hin, Hout. split; [|split]; [intros h [?|?]; discriminate | discriminate | done]. }
  destruct (list_index_lookup _ _ _ Hidx) as [Hlook Hfirst].
  assert (Hfound : str_in name ports = true).
  { unfold str_in. apply existsb_exists. exists name. split; [|apply String.eqb_refl].
    apply list_elem_of_In. by eapply list_elem_of_lookup_2. }
  assert (Hnot : ¬ (∀ n, Some name = Some n → n = "" ∨ str_in n ports = false)).
  { intros Hall. destruct (Hall name eq_refl) as [?|Hno]; [done | congruence]. }
  destruct (open_in_ok idx); [destruct (open_out_ok idx)|]; simpl;
    (split; [|split]; [| | intros Hall; by destruct Hnot]).
  - intros h [[= <-]|[= <-]]; by exists name.
  - by intros h [= <-].
  - intros h [[= <-]|[= <-]]; by exists name.
  - by intros h [= <-].
  - rewrite Hout. intros h [[= <-]|?]; [by exists name | discriminate].
  - rewrite Hout. discriminate.
Qed.

Lemma hex_digit_range c v : hex_digit c = Some v → (0 ≤ v < 16)%Z.
Proof.
  unfold hex_digit. set (n := Z.of_nat (nat_of_ascii c)).
  destruct ((48 <=? n)%Z && (n <=? 57)%Z) eqn:H1.
  { apply andb_true_iff in H1 as [?%Z.leb_le ?%Z.leb_le]. intros [= <-]. lia. }
  destruct ((97 <=? n)%Z && (n <=? 102)%Z) eqn:H2.
  { apply andb_true_iff in H2 as [?%Z.leb_le ?%Z.leb_le]. intros [= <-]. lia. }
  destruct ((65 <=? n)%Z && (n <=? 70)%Z) eqn:H3; [|discriminate].
  apply andb_true_iff in H3 as [?%Z.leb_le ?%Z.leb_le]. intros [= <-]. lia.
Qed.

Lemma fromhex_range (n : nat) : ∀ s bs,
  (String.length s ≤ n)%nat → fromhex s = Ret bs → Forall is_byte bs.
Proof.
  induction n as [|n IH]; intros s bs Hlen.
  - destruct s; simpl in Hlen; [|lia]. intros [= <-]. constructor.
  - destruct s as [|c rest]; [intros [= <-]; constructor|].
    simpl in Hlen. simpl fromhex. destruct (is_space c).
    + apply IH. lia.
    + destruct (hex_digit c) as [top|] eqn:Htop; [|discriminate].
      destruct rest as [|c2 rest2]; [discriminate|].
      destruct (hex_digit c2) as [bot|] eqn:Hbot; [|discriminate].
      destruct (fromhex rest2) as [tail|e] eqn:Htail; [|discriminate].
      simpl. intros [= <-]. constructor.
      * apply hex_digit_range in Htop, Hbot. unfold is_byte. lia.
      * apply (IH rest2); [simpl in Hlen; lia | exact Htail].
Qed.

Lemma bytearray_range items : ∀ bs, bytearray items = Ret bs → Forall is_byte bs.
Proof.
  induction items as [|j rest IH]; intros bs; simpl; [intros [= <-]; constructor|].
  destruct (byte_of_json j) as [b|e] eqn:Hb; [|discriminate]. simpl.
  destruct (bytearray rest) as [tail|e]; [|discriminate]. simpl. intros [= <-].
  constructor; [|by apply IH].
  destruct j; simpl in Hb; try discriminate.
  - injection Hb as <-. unfold is_byte. destruct b0; lia.
  - destruct ((0 <=? z)%Z && (z <? 256)%Z) eqn:Hz; [|discriminate]. injection Hb as <-.
    apply andb_true_iff in Hz as [?%Z.leb_le ?%Z.ltb_lt]. unfold is_byte. lia.
Qed.

(** The device the look-up returns is the first of the table that bears
    the event name, and the name is a string. *)
Lemma find_device_found (devices : list MidiDevice) (name : json) (target : MidiDevice) :
  find_device devices name = Some target →
  ∃ ev before after,
    name = JStr ev ∧ devices = (before ++ target :: after)%list ∧
    Forall (fun d => event_name d ≠ ev) before ∧ event_name target = ev.
Proof.
  assert (Hstring : ∀ ds, (∀ s, str_eq_json s name = false) → find_device ds name = None).
  { intros ds Hno. induction ds as [|d ds IH]; [reflexivity|]. simpl. by rewrite Hno. }
  destruct name as [| | | |ev| |];
    try (rewrite Hstring by reflexivity; discriminate).
  clear Hstring. induction devices as [|d rest IH]; [discriminate|]. simpl.
  destruct (String.eqb_spec (event_name d) ev) as [Heq|Hne].
  - intros [= <-]. exists ev, [], rest. by repeat split.
  - intros Hfind. destruct (IH Hfind) as (ev' & before & after & [= <-] & -> & Hbefore & Hname).
    exists ev, (d :: before), after. split; [reflexivity|]. split; [reflexivity|].
    split; [by constructor | exact Hname].
Qed.

(** X16: whatever the event name and the data, [send_midi_api] transmits
    at most one message; it returns true exactly when it transmitted one;
    a transmitted message went out through the output handle of the first
    device of the table whose event name is the given name, which is a
    string; the message is the one the data writes, the port took it, and
    every value in it is a byte between 0 and 255. *)
Theorem send_midi_api_sound (devices : list MidiDevice) (name data : json) :
  let '(ok, out) := send_midi_api send_message_ok devices name data in
  (length out ≤ 1)%nat ∧
  (ok = true ↔ out ≠ []) ∧
  ∀ h msg, (h, msg) ∈ out →
    Forall is_byte msg ∧ data_bytes data msg ∧ send_message_ok h msg = true ∧
    ∃ ev before target after,
      name = JStr ev ∧ devices = (before ++ target :: after)%list ∧
      Forall (fun d => event_name d ≠ ev) before ∧ event_name target = ev ∧
      midi_out target = Some h.
Proof.
  unfold send_midi_api.
  assert (Hquiet : ∀ P : midi_handle → list Z → Prop,
            (length (@nil sent) ≤ 1)%nat ∧ (false = true ↔ @nil sent ≠ []) ∧
            ∀ h msg, (h, msg) ∈ @nil sent → P h msg).
  { intros P. split; [simpl; lia|]. split; [split; [discriminate | done]|].
    intros h msg Hin. by apply elem_of_nil in Hin. }
  destruct (find_device devices name) as [target|] eqn:Hfind; [|apply Hquiet].
  destruct (midi_out target) as [out|] eqn:Hout; [|apply Hquiet].
  destruct (find_device_found _ _ _ Hfind) as (ev & before & after & Hname & Hdev & Hbefore & Hev).
  assert (Hsend : ∀ msg, Forall is_byte msg → data_bytes data msg →
     let '(ok, sent) :=
       if send_message_ok out msg then (true, [(out, msg)]) else (false, []) in
     (length sent ≤ 1)%nat ∧ (ok = true ↔ sent ≠ []) ∧
     ∀ h m, (h, m) ∈ sent →
       Forall is_byte m ∧ data_bytes data m ∧ send_message_ok h m = true ∧
       ∃ ev before target after,
         name = JStr ev ∧ devices = (before ++ target :: after)%list ∧
         Forall (fun d => event_name d ≠ ev) before ∧ event_name target = ev ∧
         midi_out target = Some h).
  { intros msg Hrange Hbytes.
    destruct (send_message_ok out msg) eqn:Hok; [|apply Hquiet].
    split; [simpl; lia|]. split; [split; [done | reflexivity]|].
    intros h m Hin. apply list_elem_of_singleton in Hin. injection Hin as -> ->.
    split; [exact Hrange|]. split; [exact Hbytes|]. split; [exact Hok|].
    by exists ev, before, target, after. }
  destruct data as [| | | |s|items|]; try apply Hquiet.
  - destruct (fromhex (remove_spaces s)) as [msg|e] eqn:Hhex; [|apply Hquiet].
    apply Hsend.
    + by apply (fromhex_range _ _ _ (le_n _) Hhex).
    + constructor. by apply (hex_shape_fromhex (String.length s)).
  - destruct (bytearray items) as [msg|e] eqn:Hbytes; [|apply Hquiet].
    apply Hsend.
    + by apply (bytearray_range _ _ Hbytes).
    + constructor. by apply bytearray_values.
Qed.

Variable close_in_ok : midi_handle → bool.
Variable close_out_ok : midi_handle → bool.

(** X17: [script_unload] removes the MIDI bridge.  Afterwards a device
    still holds a handle only if closing that handle's port raised; so
    when closing the output ports does not raise, every later call of
    [send_midi_api] on the device table returns false and transmits
    nothing. *)
Theorem script_unload_silences (w : world) :
  let w1 := script_unload close_in_ok close_out_ok w in
  midi_manager w1 = false ∧
  (∀ d h, d ∈ midi_devices w1 → midi_in d = Some h → close_in_ok h = false) ∧
  (∀ d h, d ∈ midi_devices w1 → midi_out d = Some h → close_out_ok h = false) ∧
  ((∀ h, close_out_ok h = true) →
   ∀ name data, send_midi_api send_message_ok (midi_devices w1) name data = (false, [])).
Proof.
  simpl.
  assert (Hin : ∀ d h, d ∈ map (stop_midi_device close_in_ok close_out_ok) (midi_devices w) →
                  midi_in d = Some h → close_in_ok h = false).
  { intros d h Hd. apply list_elem_of_fmap in Hd as (d0 & -> & _). simpl.
    destruct (midi_in d0) as [h0|]; [|discriminate].
    destruct (close_in_ok h0) eqn:Hc; [discriminate|]. by intros [= <-]. }
  assert (Hout : ∀ d h, d ∈ map (stop_midi_device close_in_ok close_out_ok) (midi_devices w) →
                   midi_out d = Some h → close_out_ok h = false).
  { intros d h Hd. apply list_elem_of_fmap in Hd as (d0 & -> & _). simpl.
    destruct (midi_out d0) as [h0|]; [|discriminate].
    destruct (close_out_ok h0) eqn:Hc; [discriminate|]. by intros [= <-]. }
  split; [reflexivity|]. split; [exact Hin|]. split; [exact Hout|].
  intros Hclose name data. unfold send_midi_api.
  destruct (find_device _ name) as [target|] eqn:Hfind; [|reflexivity].
  assert (Htarget : target ∈ map (stop_midi_device close_in_ok close_out_ok) (midi_devices w)).
  { clear Hin Hout.
    induction (map (stop_midi_device close_in_ok close_out_ok) (midi_devices w))
      as [|d rest IH]; [discriminate|]. simpl in Hfind.
    destruct (str_eq_json (event_name d) name).
    - injection Hfind as <-. left.
    - right. by apply IH. }
  destruct (midi_out target) as [h|] eqn:Hh; [|reflexivity].
  pose proof (Hout target h Htarget Hh) as Hno. rewrite Hclose in Hno. discriminate.
Qed.
End MidiDevices.

(** ** MIDI load: when it completes *)

Section MidiLoadOutcome.
Import Host MIDI.
Variable open_in_ok : nat → bool.
Variable open_out_ok : nat → bool.
Variable close_in_ok : midi_handle → bool.
Variable close_out_ok : midi_handle → bool.

Lemma port_found_after_mark (st : settings) ports i j :
  i ≠ j →
  port_found (obs_data_set_string st (fkey "midi_port_name_" i) "---") ports j
  = port_found st ports j.
Proof.
  intros Hne. unfold port_found, saved_port. f_equal. apply get_set_other.
  intros Heq. apply fkey_inj in Heq. congruence.
Qed.

(** Past the first device that is not found, the first device that is
    found makes the loop raise. *)
Lemma load_devices_raises_after_missing idxs : ∀ w,
  NoDup idxs →
  (∀ i, i ∈ idxs → (length (midi_devices w) < i)%nat) →
  (∃ i, i ∈ idxs ∧ port_found (script_settings w) (midi_ports_in w) i = true) →
  Forall unbound (midi_devices w) →
  ∃ w', load_devices idxs w = (w', Raise IndexError) ∧
        midi_manager w' = midi_manager w ∧ Forall unbound (midi_devices w').
Proof.
  induction idxs as [|i rest IH]; intros w Hnd Hlen Hfound Hunbound.
  - destruct Hfound as (i & Hi & _). by apply elem_of_nil in Hi.
  - apply NoDup_cons in Hnd as [Hi Hnd]. simpl.
    destruct (str_in _ (midi_ports_in w)) eqn:Hfi.
    + rewrite lookup_ge_None_2.
      * eexists. split; [reflexivity|]. split; [reflexivity|]. simpl.
        apply Forall_app. split; [exact Hunbound|]. constructor; [by split | constructor].
      * simpl. rewrite length_app. simpl.
        pose proof (Hlen i (list_elem_of_here _ _)). lia.
    + destruct (IH (set_settings w
                      (obs_data_set_string (script_settings w)
                         (fkey "midi_port_name_" i) "---")))
        as (w' & Hrun & Hreg & Hun).
      * exact Hnd.
      * intros j Hj. simpl. apply Hlen. by right.
      * destruct Hfound as (j & Hj & Hfj). apply elem_of_cons in Hj as [->|Hj].
        { unfold port_found, saved_port in Hfj. congruence. }
        exists j. split; [exact Hj|]. simpl. rewrite port_found_after_mark; [exact Hfj|].
        intros ->. done.
      * exact Hunbound.
      * exists w'. by split.
Qed.

Lemma forallb_negb_false {A} (f : A → bool) l :
  forallb negb (map f l) = false → ∃ x, x ∈ l ∧ f x = true.
Proof.
  induction l as [|y l IH]; [discriminate|]. simpl.
  destruct (f y) eqn:Hy; simpl.
  - intros _. exists y. split; [left | exact Hy].
  - intros Hrest. destruct (IH Hrest) as (x & Hx & Hfx). exists x. split; [by right | exact Hfx].
Qed.

Lemma load_devices_gap n : ∀ k w,
  length (midi_devices w) = k →
  found_first (map (port_found (script_settings w) (midi_ports_in w)) (seq k n)) = false →
  Forall unbound (midi_devices w) →
  ∃ w', load_devices (seq k n) w = (w', Raise IndexError) ∧
        midi_manager w' = midi_manager w ∧ Forall unbound (midi_devices w').
Proof.
  induction n as [|n IH]; intros k w Hlen Hff Hunbound; [discriminate|].
  change (seq k (S n)) with (k :: seq (S k) n) in *. simpl map in Hff.
  destruct (port_found (script_settings w) (midi_ports_in w) k) eqn:Hfound.
  - simpl in Hff. simpl load_devices.
    pose proof Hfound as Hin. unfold port_found, saved_port in Hin. rewrite Hin.
    rewrite (list_lookup_middle (midi_devices w) [] _ k (eq_sym Hlen)).
    destruct (IH (S k) (set_devices w
                (midi_devices w ++
                 [loaded_device (script_settings w) k
                    (obs_data_get_string (script_settings w) (fkey "midi_port_name_" k))])))
      as (w' & Hrun & Hreg & Hun).
    + simpl. rewrite length_app. simpl. lia.
    + exact Hff.
    + simpl. apply Forall_app. split; [exact Hunbound|]. constructor; [by split | constructor].
    + exists w'. by split.
  - simpl in Hff. apply forallb_negb_false in Hff as (j & Hj & Hfj).
    simpl load_devices.
    pose proof Hfound as Hin. unfold port_found, saved_port in Hin. rewrite Hin.
    destruct (load_devices_raises_after_missing (seq (S k) n)
                (set_settings w
                   (obs_data_set_string (script_settings w)
                      (fkey "midi_port_name_" k) "---")))
      as (w' & Hrun & Hreg & Hun).
    + apply NoDup_seq.
    + intros i Hi. simpl. apply elem_of_seq in Hi. lia.
    + exists j. split; [exact Hj|]. simpl. rewrite port_found_after_mark; [exact Hfj|].
      apply elem_of_seq in Hj. lia.
    + exact Hunbound.
    + exists w'. by split.
Qed.

Lemma saved_port_after_mark (st : settings) i j :
  i ≠ j →
  saved_port (obs_data_set_string st (fkey "midi_port_name_" i) "---") j = saved_port st j.
Proof.
  intros Hne. unfold saved_port. apply get_set_other.
  intros Heq. apply fkey_inj in Heq. congruence.
Qed.

(** Whatever the loop does, a device it adds is built for an index whose
    port is found. *)
Lemma load_devices_table idxs : ∀ w,
  NoDup idxs →
  ∀ d, d ∈ midi_devices (fst (load_devices idxs w)) →
    d ∈ midi_devices w ∨
    ∃ i, i ∈ idxs ∧ port_found (script_settings w) (midi_ports_in w) i = true ∧
         device_name d = "MIDI Device " +:+ pretty (i + 1)%nat ∧
         port_name d = Some (saved_port (script_settings w) i) ∧
         unbound d.
Proof.
  induction idxs as [|i rest IH]; intros w Hnd d; [by left|].
  apply NoDup_cons in Hnd as [Hi Hnd]. simpl.
  destruct (str_in _ (midi_ports_in w)) eqn:Hfi.
  - set (ld := loaded_device (script_settings w) i
                 (obs_data_get_string (script_settings w) (fkey "midi_port_name_" i))).
    assert (Hadded : d ∈ (midi_devices w ++ [ld])%list →
              d ∈ midi_devices w ∨
              ∃ j, j ∈ i :: rest ∧ port_found (script_settings w) (midi_ports_in w) j = true ∧
                   device_name d = "MIDI Device " +:+ pretty (j + 1)%nat ∧
                   port_name d = Some (saved_port (script_settings w) j) ∧ unbound d).
    { intros Hd. apply elem_of_app in Hd as [Hd|Hd]; [by left|].
      apply list_elem_of_singleton in Hd as ->. right. exists i.
      split; [left|]. split; [exact Hfi|]. split; [reflexivity|].
      split; [reflexivity | by split]. }
    destruct (_ !! i).
    + intros Hd. destruct (IH _ Hnd d Hd) as [Hold | (j & Hj & Hrest)].
      * by apply Hadded.
      * right. exists j. split; [by right | exact Hrest].
    + exact Hadded.
  - intros Hd. destruct (IH _ Hnd d Hd) as [Hold | (j & Hj & Hfj & Hname & Hport & Hun)].
    + by left.
    + assert (i ≠ j) by (intros ->; done).
      right. exists j. split; [by right|]. simpl in Hfj, Hport.
      rewrite port_found_after_mark in Hfj by done.
      rewrite saved_port_after_mark in Hport by done.
      split; [exact Hfj|]. split; [exact Hname|]. split; [exact Hport | exact Hun].
Qed.

Lemma start_device_port_name ports d :
  port_name (start_midi_device open_in_ok open_out_ok ports d) = port_name d.
Proof.
  unfold start_midi_device. destruct (port_name d) as [name|] eqn:Hname; [|by rewrite Hname].
  destruct (negb (str_truthy name)); [by rewrite Hname|].
  destruct (list_index ports name) as [idx|]; [|by rewrite Hname].
  destruct (open_in_ok idx); [destruct (open_out_ok idx)|]; exact Hname.
Qed.

Lemma stop_loaded_device st i name :
  stop_midi_device close_in_ok close_out_ok (loaded_device st i name) = loaded_device st i name.
Proof. reflexivity. Qed.

(** C6, amended: loading from an empty device table never creates an
    entry for a configured device whose saved port is not enumerated:
    whether the load completes or not, every entry of the table was built
    for a device whose port is found and bears that port name.  When the
    load completes, the saved port name of every device that is not found
    reads ["---"].  The load completes, leaving the found devices in
    configuration order and the bridge registered, when the devices whose
    port is found are configured before those whose port is not. *)
Theorem script_load_no_stub (st : settings) (ports : list string) (w0 : world) :
  let count := Z.to_nat (obs_data_get_int st "number_of_devices") in
  let r := script_load open_in_ok open_out_ok close_in_ok close_out_ok st (Ret ports) w0 in
  midi_devices w0 = [] →
  (∀ d, d ∈ midi_devices (fst r) →
     ∃ i, (i < count)%nat ∧ port_found st ports i = true ∧
          device_name d = "MIDI Device " +:+ pretty (i + 1)%nat ∧
          port_name d = Some (saved_port st i)) ∧
  (∀ i, (i < count)%nat → port_found st ports i = false →
     ∀ d, d ∈ midi_devices (fst r) → device_name d ≠ "MIDI Device " +:+ pretty (i + 1)%nat) ∧
  (snd r = Ret tt →
     ∀ i, (i < count)%nat → port_found st ports i = false →
       saved_port (script_settings (fst r)) i = "---") ∧
  (found_first (map (port_found st ports) (seq 0 count)) = true →
     snd r = Ret tt ∧ midi_manager (fst r) = true ∧
     midi_devices (fst r) =
       map (start_midi_device open_in_ok open_out_ok ports)
           (loaded_table st ports (seq 0 count))).
Proof.
  intros count r Hempty.
  set (w2 := set_ports (set_settings w0 st) ports).
  assert (Hentries : ∀ d, d ∈ midi_devices (fst r) →
     ∃ i, (i < count)%nat ∧ port_found st ports i = true ∧
          device_name d = "MIDI Device " +:+ pretty (i + 1)%nat ∧
          port_name d = Some (saved_port st i)).
  { assert (Hloop : ∀ d, d ∈ midi_devices (fst (load_devices (seq 0 count) w2)) →
       ∃ i, (i < count)%nat ∧ port_found st ports i = true ∧
            device_name d = "MIDI Device " +:+ pretty (i + 1)%nat ∧
            port_name d = Some (saved_port st i)).
    { intros d Hd.
      destruct (load_devices_table (seq 0 count) w2 (NoDup_seq 0 count) d Hd)
        as [Hold | (i & Hi & Hfound & Hname & Hport & _)].
      - simpl in Hold. rewrite Hempty in Hold. by apply elem_of_nil in Hold.
      - exists i. apply elem_of_seq in Hi. split; [lia|]. by repeat split. }
    subst r. unfold script_load. fold count. fold w2.
    destruct (load_devices (seq 0 count) w2) as [w3 [[]|e]]; simpl in *; [|exact Hloop].
    intros d Hd. rewrite map_map in Hd. apply list_elem_of_fmap in Hd as (d0 & -> & Hd0).
    destruct (Hloop d0 Hd0) as (i & Hi & Hfound & Hname & Hport).
    exists i. split; [exact Hi|]. split; [exact Hfound|].
    by rewrite start_device_name, start_device_port_name. }
  split; [exact Hentries|]. split.
  { intros i Hi Hmiss d Hd Hname.
    destruct (Hentries d Hd) as (j & Hj & Hfound & Hdname & _).
    rewrite Hdname in Hname.
    apply (inj (String.app "MIDI Device ")) in Hname. apply (inj pretty) in Hname.
    assert (j = i) as -> by lia. congruence. }
  assert (Hdone : found_first (map (port_found st ports) (seq 0 count)) = true →
    r = (start_midi open_in_ok open_out_ok
           (stop_midi close_in_ok close_out_ok
              (register_manager
                 (set_settings
                    (set_devices w2 (loaded_table st ports (seq 0 count)))
                    (mark_missing st
                       (List.filter (fun i => negb (port_found st ports i)) (seq 0 count)))))),
         Ret tt)).
  { intros Hff. subst r. unfold script_load. fold count. fold w2.
    assert (Hload := load_devices_found_first count 0 w2).
    change (script_settings w2) with st in Hload.
    change (midi_ports_in w2) with ports in Hload.
    change (midi_devices w2) with (midi_devices w0) in Hload.
    rewrite Hempty in Hload. by rewrite (Hload eq_refl Hff). }
  split.
  - intros Hret i Hi Hmiss.
    destruct (found_first (map (port_found st ports) (seq 0 count))) eqn:Hff.
    + rewrite (Hdone eq_refl). simpl. apply saved_port_mark.
      * apply NoDup_ListNoDup, List.NoDup_filter, List.seq_NoDup.
      * apply list_elem_of_In, List.filter_In. split; [apply List.in_seq; lia|].
        by rewrite Hmiss.
    + exfalso. destruct (load_devices_gap count 0 w2) as (w' & Hrun & _).
      * simpl. by rewrite Hempty.
      * exact Hff.
      * simpl. rewrite Hempty. constructor.
      * subst r. unfold script_load in Hret. fold count in Hret. fold w2 in Hret.
        rewrite Hrun in Hret. discriminate.
  - intros Hff. rewrite (Hdone Hff). simpl. split; [reflexivity|]. split; [reflexivity|].
    rewrite map_map. unfold loaded_table. rewrite !map_map. reflexivity.
Qed.

(** X18: loading from an empty device table completes exactly when, in
    the configured order, no device whose port is missing comes before a
    device whose port is enumerated.  Otherwise [script_load] leaves with
    [IndexError]: the MIDI bridge is not registered and no port has been
    opened. *)
Theorem script_load_completes_iff (st : settings) (ports : list string) (w0 : world) :
  let count := Z.to_nat (obs_data_get_int st "number_of_devices") in
  let r := script_load open_in_ok open_out_ok close_in_ok close_out_ok st (Ret ports) w0 in
  midi_devices w0 = [] →
  (snd r = Ret tt ↔ found_first (map (port_found st ports) (seq 0 count)) = true) ∧
  (found_first (map (port_found st ports) (seq 0 count)) = false →
   snd r = Raise IndexError ∧
   midi_manager (fst r) = midi_manager w0 ∧
   Forall unbound (midi_devices (fst r))).
Proof.
  intros count r Hempty. subst r. unfold script_load. fold count.
  set (w2 := set_ports (set_settings w0 st) ports).
  destruct (found_first (map (port_found st ports) (seq 0 count))) eqn:Hff.
  - assert (Hload := load_devices_found_first count 0 w2).
    change (script_settings w2) with st in Hload.
    change (midi_ports_in w2) with ports in Hload.
    change (midi_devices w2) with (midi_devices w0) in Hload.
    rewrite Hempty in Hload. rewrite (Hload eq_refl Hff). simpl.
    split; [done | discriminate].
  - destruct (load_devices_gap count 0 w2) as (w' & Hrun & Hreg & Hun).
    + simpl. by rewrite Hempty.
    + exact Hff.
    + simpl. rewrite Hempty. constructor.
    + rewrite Hrun. simpl. split; [split; discriminate|]. intros _.
      split; [reflexivity|]. split; [exact Hreg | exact Hun].
Qed.

Variable send_message_ok : midi_handle → list Z → bool.

Lemma found_first_all (f : nat → bool) l :
  (∀ x, x ∈ l → f x = true) → found_first (map f l) = true.
Proof.
  induction l as [|x l IH]; intros Hall; [reflexivity|]. simpl.
  rewrite (Hall x (list_elem_of_here _ _)). apply IH. intros y Hy. apply Hall. by right.
Qed.

Lemma start_device_event_name ports d :
  event_name (start_midi_device open_in_ok open_out_ok ports d) = event_name d.
Proof.
  unfold start_midi_device. destruct (port_name d) as [name|]; [|reflexivity].
  destruct (negb (str_truthy name)); [reflexivity|].
  destruct (list_index ports name) as [idx|]; [|reflexivity].
  destruct (open_in_ok idx); [destruct (open_out_ok idx)|]; reflexivity.
Qed.

Lemma find_device_by_position (g : nat → MidiDevice) (n : nat) : ∀ k i,
  (k ≤ i < k + n)%nat →
  (∀ j, (j < k + n)%nat → event_name (g j) = fkey "midiDevice_" j) →
  find_device (map g (seq k n)) (JStr (fkey "midiDevice_" i)) = Some (g i).
Proof.
  induction n as [|n IH]; intros k i Hi Hnames; [lia|].
  change (seq k (S n)) with (k :: seq (S k) n). simpl. rewrite Hnames by lia.
  destruct (String.eqb_spec (fkey "midiDevice_" k) (fkey "midiDevice_" i)) as [Heq|Hne].
  - apply fkey_inj in Heq. by subst.
  - apply IH.
    + assert (k ≠ i) by congruence. lia.
    + intros j Hj. apply Hnames. lia.
Qed.

(** X19: after a load in which every configured device is found and none
    has a configured event name, a send addressed to [midiDevice_i] with a
    hexadecimal text hands the bytes of the text to the driver on a handle
    opened on the first enumerated port that bears the port name saved
    for device [i], provided that name is not empty and the driver opened
    the port; the call returns true with the bytes transmitted when the
    driver takes this message, and false with nothing transmitted when
    it refuses it. *)
Theorem send_after_load_reaches_port (st : settings) (ports : list string) (w0 : world)
    (i idx : nat) (bs : list Z) (text : string) :
  let count := Z.to_nat (obs_data_get_int st "number_of_devices") in
  midi_devices w0 = [] →
  (i < count)%nat →
  (∀ j, (j < count)%nat → port_found st ports j = true) →
  (∀ j, (j < count)%nat → obs_data_get_string st (fkey "event_name_" j) = "") →
  saved_port st i ≠ "" →
  list_index ports (saved_port st i) = Some idx →
  open_in_ok idx = true → open_out_ok idx = true →
  hex_text bs text →
  let w := fst (script_load open_in_ok open_out_ok close_in_ok close_out_ok st (Ret ports) w0) in
  midi_manager w = true ∧
  send_midi_api send_message_ok (midi_devices w) (JStr (fkey "midiDevice_" i)) (JStr text)
  = if send_message_ok (MidiHandle idx true) bs
    then (true, [(MidiHandle idx true, bs)]) else (false, []).
Proof.
  intros count Hempty Hi Hfound Hnone Hname Hidx Hin Hout Htext w. subst w.
  unfold script_load. fold count.
  set (w2 := set_ports (set_settings w0 st) ports).
  assert (Hall : ∀ j, j ∈ seq 0 count → port_found st ports j = true).
  { intros j Hj. apply Hfound. apply elem_of_seq in Hj. lia. }
  assert (Hload := load_devices_found_first count 0 w2).
  change (script_settings w2) with st in Hload.
  change (midi_ports_in w2) with ports in Hload.
  change (midi_devices w2) with (midi_devices w0) in Hload.
  rewrite Hempty in Hload. rewrite (Hload eq_refl (found_first_all _ _ Hall)). clear Hload.
  simpl. split; [reflexivity|].
  unfold loaded_table. rewrite (filter_all_true _ _ Hall), !map_map.
  set (g := fun j => start_midi_device open_in_ok open_out_ok ports
                       (stop_midi_device close_in_ok close_out_ok
                          (loaded_device st j (saved_port st j)))).
  assert (Hg : find_device (map g (seq 0 count)) (JStr (fkey "midiDevice_" i)) = Some (g i)).
  { apply find_device_by_position; [lia|]. intros j Hj. subst g. cbv beta.
    rewrite start_device_event_name. simpl. by rewrite Hnone. }
  unfold send_midi_api. rewrite Hg.
  assert (Hhandle : midi_out (g i) = Some (MidiHandle idx true)).
  { subst g. cbv beta. rewrite stop_loaded_device. unfold start_midi_device. simpl port_name.
    cbv beta iota. apply str_truthy_true in Hname. rewrite Hname. simpl negb. cbv iota.
    by rewrite Hidx, Hin, Hout. }
  by rewrite Hhandle, (fromhex_hex_text _ _ Htext).
Qed.
End MidiLoadOutcome.

(** ** MIDI input: when an event is delivered *)

Section MidiDelivery.
Import Host MIDI.
Variable source_exists : string → bool.
Variable dumps : json → string.
Variable inject_ok : js_event → bool.

(** X20: when the callback returns, the browser source has received
    either nothing or the one event that bears the device's event name
    and the encoded status, note, velocity and full byte list; it has
    received it exactly when the device names a browser source, the
    source exists and the hand-over did not fail; and an error was
    recorded exactly when the hand-over was tried and failed. *)
Theorem midi_input_callback_delivery (device : MidiDevice) (midi_data : list Z) r :
  midi_input_callback source_exists dumps inject_ok device midi_data = Ret r →
  let ev := JsEvent (browser_source_name device) (event_name device)
              (dumps (event_data (cb_decoded r) midi_data)) in
  let tried := str_truthy (browser_source_name device) &&
               source_exists (browser_source_name device) in
  cb_events r = (if tried && inject_ok ev then [ev] else []) ∧
  cb_dropped r = tried && negb (inject_ok ev).
Proof.
  unfold midi_input_callback. destruct (decode midi_data) as [d|e]; [|discriminate]. simpl.
  destruct (str_truthy (browser_source_name device)); simpl.
  - destruct (source_exists (browser_source_name device)); simpl.
    + destruct (inject_ok _) eqn:Hinj; simpl; intros [= <-]; simpl; rewrite Hinj; by split.
    + intros [= <-]. by split.
  - intros [= <-]. by split.
Qed.
End MidiDelivery.

(** ** The credentials file *)

Section ConfigOutcome.
Import HTTP.
Variable int_of_str : string → option Z.
Variable int_of_float : float → option Z.
Variable path_exists : string → bool.
Variable load_json : string → load_result.

(** X21: whatever the path and the file, the message [update_wss_details]
    returns tells what happened to the triple: with "File not found",
    "Invalid JSON" or "Missing keys" the load is rejected and the triple
    is as before; with "Loaded successfully" the flag is true and the
    host is ["localhost"]; with "Error" the load is rejected and host and
    port are as before. *)
Theorem update_wss_details_outcome (source_path : string) (d : wss_details) :
  let r := update_wss_details int_of_str int_of_float path_exists load_json source_path d in
  match snd (fst r) with
  | FileNotFound | InvalidJSON | MissingKeys _ => fst (fst r) = false ∧ snd r = d
  | LoadedSuccessfully => fst (fst r) = true ∧ IP (snd r) = "localhost"
  | ErrorMessage _ => fst (fst r) = false ∧ IP (snd r) = IP d ∧ PORT (snd r) = PORT d
  end.
Proof.
  unfold update_wss_details.
  destruct (negb (str_truthy source_path) || negb (path_exists source_path)); [by split|].
  destruct (load_json source_path) as [e| |source_data]; [by split | by split |].
  destruct (missing_keys required_keys source_data) as [[|k ks]|e]; [|by split|by split].
  destruct (py_get_default source_data "server_password" (JStr "")) as [pw|e]; [|by split].
  destruct (let* p := py_get_default source_data "server_port" (JInt 4455) in
            py_int int_of_str int_of_float p) as [port|e]; by split.
Qed.

(** X22: a file that decodes to anything but a JSON object (a list, a
    string, a number, a boolean, [null]) is rejected and leaves the
    triple as it was, even when the list or the string contains the two
    key names. *)
Theorem update_wss_details_not_an_object (source_path : string) (d : wss_details)
    (source_data : json) :
  load_json source_path = Loaded source_data →
  is_object source_data = false →
  let r := update_wss_details int_of_str int_of_float path_exists load_json source_path d in
  fst (fst r) = false ∧ snd r = d.
Proof.
  intros Hload Hobj. unfold update_wss_details.
  destruct (negb (str_truthy source_path) || negb (path_exists source_path)); [by split|].
  rewrite Hload.
  destruct (missing_keys required_keys source_data) as [[|k ks]|e]; [|by split|by split].
  destruct source_data; try discriminate Hobj; by split.
Qed.

(** X23: after a load of a file that is an object with both keys and a
    port that [int] accepts, a GET of [/api/obswss] answers 200 with the
    host ["localhost"], the converted port and the password of the file;
    what was in memory before does not show. *)
Theorem obswss_after_load {FS : Type} `{FileSystem FS}
    (static_GET : string → gmap string string → FS → outcome FS)
    (SCRIPT_DIR source_path : string) (d : wss_details) members pw port z
    (query_params : gmap string string) (fs : FS) :
  source_path ≠ "" → path_exists source_path = true →
  load_json source_path = Loaded (JObj members) →
  assoc_get "server_password" members = Some pw →
  assoc_get "server_port" members = Some port →
  py_int int_of_str int_of_float port = Ret z →
  let r := update_wss_details int_of_str int_of_float path_exists load_json source_path d in
  fst (fst r) = true ∧
  out_response (do_GET SCRIPT_DIR static_GET "/api/obswss" query_params (snd r) fs)
  = Response 200 (DetailsBody {| IP := "localhost"; PORT := z; PW := pw |}).
Proof.
  intros Hpath Hex Hload Hpw Hport Hint r. subst r.
  rewrite (update_success int_of_str int_of_float path_exists load_json
             source_path d members pw port z Hpath Hex Hload Hpw Hport Hint).
  by split.
Qed.
End ConfigOutcome.

(** ** The HTTP listener and the script callbacks *)

Section HTTPLifecycle.
Import Host HTTP.
Variable int_of_str : string → option Z.
Variable int_of_float : float → option Z.
Variable path_exists : string → bool.
Variable load_json : string → load_result.
Variable exn_text : exn → string.

Abbreviation run := (run_calls int_of_str int_of_float path_exists load_json exn_text).
Abbreviation step := (run_call int_of_str int_of_float path_exists load_json exn_text).

Lemma http_stop_step (s : server_state) :
  let '(s1, evs) := stop_server s in
  open_after (listening s) evs = listening s1 ∧ (peak (listening s) evs ≤ 1)%nat ∧
  HTTP_SERVER_INSTANCE s1 = None ∧ SERVER_THREAD s1 = false ∧
  CURRENT_HTTP_PORT s1 = CURRENT_HTTP_PORT s ∧ WSS_DETAILS s1 = WSS_DETAILS s.
Proof.
  unfold stop_server, listening. destruct (HTTP_SERVER_INSTANCE s) as [port|]; simpl.
  - unfold open_after. simpl. rewrite Z.eqb_refl. simpl. repeat split; try reflexivity; lia.
  - repeat split; try reflexivity; lia.
Qed.

Lemma http_start_step (bind : Z → option Z) port (s : server_state) :
  binds_requested bind →
  CURRENT_HTTP_PORT s = port →
  let '(s1, evs) := start_server bind port s in
  open_after (listening s) evs = listening s1 ∧ (peak (listening s) evs ≤ 1)%nat ∧
  on_current_port s1.
Proof.
  intros Hbind Hport. unfold start_server. pose proof (http_stop_step s) as Hstop.
  destruct (stop_server s) as [s0 closed].
  destruct Hstop as (Hopen & Hpeak & Hnone & Hthread & Hcur & _).
  assert (Hheld : listening s0 = []) by (unfold listening; by rewrite Hnone).
  destruct (bind port) as [bound|] eqn:Hbound.
  - rewrite open_after_app, peak_app, Hopen, Hheld. simpl.
    split; [reflexivity|]. split; [lia|]. split; [|reflexivity].
    simpl. intros p [= <-] Hnonzero. rewrite Hcur, Hport in *. by apply (Hbind port).
  - split; [by rewrite Hopen, Hheld|]. split; [exact Hpeak|]. split; [|simpl; exact Hthread].
    simpl. discriminate.
Qed.

Lemma http_call_step (bind : Z → option Z) (c : call) (s : server_state) :
  binds_requested bind →
  on_current_port s →
  let '(s1, evs) := step bind c s in
  open_after (listening s) evs = listening s1 ∧ (peak (listening s) evs ≤ 1)%nat ∧
  on_current_port s1.
Proof.
  intros Hbind Hinv.
  assert (Hidle : open_after (listening s) [] = listening s ∧
                  (peak (listening s) [] ≤ 1)%nat).
  { split; [reflexivity|]. unfold listening. destruct (HTTP_SERVER_INSTANCE s); simpl; lia. }
  destruct c as [st|st|st|]; unfold run_call.
  - unfold script_load. by apply (http_start_step bind _ (ServerState _ _ _ _)).
  - unfold on_port_changed. destruct (negb _).
    + by apply (http_start_step bind _ (ServerState _ _ _ _)).
    + destruct Hidle as [Ho Hp]. split; [exact Ho|]. split; [exact Hp | exact Hinv].
  - unfold on_wss_path_changed.
    destruct (update_wss_details _ _ _ _ _ _) as [[flag msg] details]. simpl.
    destruct Hidle as [Ho Hp]. split; [exact Ho|]. split; [exact Hp | exact Hinv].
  - unfold script_unload. pose proof (http_stop_step s) as Hstop.
    destruct (stop_server s) as [s1 evs].
    destruct Hstop as (Hopen & Hpeak & Hnone & Hthread & _).
    split; [exact Hopen|]. split; [exact Hpeak|]. split.
    + rewrite Hnone. discriminate.
    + by rewrite Hthread, Hnone.
Qed.

Lemma http_calls_steps (bind_at : nat → Z → option Z) (cs : list call) : ∀ n s,
  (∀ k, binds_requested (bind_at k)) →
  on_current_port s →
  let '(s1, evs) := run bind_at n cs s in
  open_after (listening s) evs = listening s1 ∧ (peak (listening s) evs ≤ 1)%nat ∧
  on_current_port s1.
Proof.
  induction cs as [|c rest IH]; intros n s Hbind Hinv; simpl.
  - split; [reflexivity|]. split; [|exact Hinv].
    unfold listening. destruct (HTTP_SERVER_INSTANCE s); simpl; lia.
  - pose proof (http_call_step (bind_at n) c s (Hbind n) Hinv) as Hstep.
    destruct (step (bind_at n) c s) as [s1 evs1]. destruct Hstep as (Hopen1 & Hpeak1 & Hinv1).
    pose proof (IH (S n) s1 Hbind Hinv1) as Hrest.
    destruct (run bind_at (S n) rest s1) as [s2 evs2].
    destruct Hrest as (Hopen2 & Hpeak2 & Hinv2).
    rewrite open_after_app, peak_app, Hopen1.
    split; [exact Hopen2|]. split; [lia | exact Hinv2].
Qed.

(** X24: through every sequence of loads, port changes, credential-path
    changes and unloads, starting from the fresh module, whatever port
    the system binds at each call (given only that a request for a port
    other than 0 is bound to that port or fails): never more than one
    listening socket is open at a time (the old one is closed before the
    new one is bound); the socket open at the end is the one
    [HTTP_SERVER_INSTANCE] holds; and that listener, when there is one
    and [CURRENT_HTTP_PORT] is not 0, is on [CURRENT_HTTP_PORT]. *)
Theorem http_listener_invariant (bind_at : nat → Z → option Z) (cs : list call) :
  (∀ k, binds_requested (bind_at k)) →
  let '(s, evs) := run bind_at 0 cs server_initial in
  (peak [] evs ≤ 1)%nat ∧
  open_after [] evs = listening s ∧
  (∀ port, HTTP_SERVER_INSTANCE s = Some port → CURRENT_HTTP_PORT s ≠ 0%Z →
     port = CURRENT_HTTP_PORT s).
Proof.
  intros Hbind.
  pose proof (http_calls_steps bind_at cs 0 server_initial Hbind) as Hrun.
  destruct (run bind_at 0 cs server_initial) as [s evs].
  destruct Hrun as (Hopen & Hpeak & Hport & _); [split; [discriminate | reflexivity]|].
  by split.
Qed.

(** X25: after [script_load] on settings whose [http_port] reads as a
    value other than 0, a port-changed callback on the same settings does
    nothing, also when the load could not bind the port: there is no
    retry.  When [http_port] reads as 0 the load asks for 8080, but the
    callback compares the 0 it reads with 8080, stores 0 as the current
    port and restarts the server asking for port 0: the old listener is
    closed and the new one is on the port the system chooses. *)
Theorem on_port_changed_after_load (bind_load bind_change : Z → option Z)
    (st : settings) (s : server_state) :
  let configured := obs_data_get_int st "http_port" in
  let s1 := fst (script_load int_of_str int_of_float path_exists load_json bind_load st s) in
  let after := on_port_changed bind_change st s1 in
  (configured ≠ 0%Z →
   CURRENT_HTTP_PORT s1 = configured ∧
   HTTP_SERVER_INSTANCE s1 = bind_load configured ∧
   after = (s1, [])) ∧
  (configured = 0%Z →
   CURRENT_HTTP_PORT s1 = 8080%Z ∧
   HTTP_SERVER_INSTANCE s1 = bind_load 8080%Z ∧
   CURRENT_HTTP_PORT (fst after) = 0%Z ∧
   HTTP_SERVER_INSTANCE (fst after) = bind_change 0%Z ∧
   snd after =
     (match bind_load 8080%Z with Some old => [Close "127.0.0.1" old] | None => [] end ++
      match bind_change 0%Z with Some new => [Bind "127.0.0.1" new] | None => [] end)%list).
Proof.
  cbv zeta. split.
  - intros Hport. apply Z.eqb_neq in Hport.
    unfold script_load, on_port_changed, start_server, stop_server. rewrite Hport.
    destruct (bind_load _); simpl; rewrite Z.eqb_refl; by repeat split.
  - intros Hzero.
    unfold script_load, on_port_changed, start_server, stop_server. rewrite Hzero. simpl.
    destruct (bind_load 8080%Z); simpl; destruct (bind_change 0%Z); by repeat split.
Qed.
End HTTPLifecycle.

(** ** The further properties at concrete inputs *)

Import Scenarios.

Lemma do_POST_refusal_touches_nothing_witness :
  let o := HTTP.do_POST root dumps_indent (fun _ _ _ => true) "/api/osc/send"
             (Ret (JObj osc_body)) unregistered empty_fs in
  HTTP.out_calls o = [] ∧ HTTP.out_fs o = empty_fs ∧ HTTP.out_datagrams o = [].
Proof.
  apply (do_POST_refusal_touches_nothing root dumps_indent (fun _ _ _ => true)
           "/api/osc/send" (Ret (JObj osc_body)) unregistered empty_fs).
  reflexivity.
Defined.

Lemma get_routes_refuse_outside_root_witness :
  HTTP.do_GET root no_static "/api/file/get" {[ "folder" := "../../etc"; "filename" := "passwd" ]}
    HTTP.WSS_DETAILS_initial empty_fs
  = HTTP.Outcome (HTTP.Response 403 (HTTP.ErrorBody HTTP.AccessDenied)) empty_fs [] [].
Proof.
  assert (Hfolder : "../../etc" ≠ "") by discriminate.
  assert (Hname : "passwd" ≠ "") by discriminate.
  apply (proj2 (get_routes_refuse_outside_root root no_static "../../etc" "passwd"
                  HTTP.WSS_DETAILS_initial empty_fs Hfolder Hname)).
  reflexivity.
Defined.


Lemma file_save_missing_field_witness :
  HTTP.do_POST root dumps_indent (fun _ _ _ => true) "/api/file/save"
    (Ret (JObj (save_body "" (JObj [])))) registered empty_fs
  = HTTP.Outcome (HTTP.Response 400 (HTTP.ErrorBody HTTP.MissingFolderFilenameData))
      empty_fs [] [].
Proof.
  apply (file_save_missing_field root dumps_indent (fun _ _ _ => true)
           (save_body "" (JObj [])) registered empty_fs).
  right. left. reflexivity.
Defined.


Lemma file_save_success_sound_witness :
  ∃ path,
    ends_with path ".json" ∧
    HTTP.out_response
      (HTTP.do_POST root dumps_indent (fun _ _ _ => true) "/api/file/save"
         (Ret (JObj (save_body "scene" (JObj [])))) registered empty_fs)
    = HTTP.Response 200 (HTTP.JsonBody (JObj [("success", JBool true); ("path", JStr path)])).
Proof.
  assert (Hok : HTTP.status (HTTP.out_response
            (HTTP.do_POST root dumps_indent (fun _ _ _ => true) "/api/file/save"
               (Ret (JObj (save_body "scene" (JObj [])))) registered empty_fs)) = 200%Z)
    by (vm_compute; reflexivity).
  destruct (file_save_success_sound root dumps_indent (fun _ _ _ => true)
              (Ret (JObj (save_body "scene" (JObj [])))) registered empty_fs Hok)
    as (members & folder & filename & data & fs1 & _ & _ & _ & _ & Hresp & Hends & _).
  eexists. split; [exact Hends | exact Hresp].
Defined.


Lemma osc_send_after_unload_witness :
  HTTP.do_POST root dumps_indent (fun _ _ _ => true) "/api/osc/send"
    (Ret (JObj osc_body))
    (registry_of
       (fst (OSC.script_unload
               (fst (OSC.script_load (fun _ _ => true) (fun _ => true)
                       osc_settings OSC.initial_world))))
       false)
    empty_fs
  = HTTP.Outcome (HTTP.Response 503 (HTTP.ErrorBody HTTP.OscScriptNotLoaded)) empty_fs [] [].
Proof.
  assert (Hname : "osc_event_0" ≠ "") by discriminate.
  exact (osc_send_after_unload root dumps_indent (fun _ _ _ => true)
           (fst (OSC.script_load (fun _ _ => true) (fun _ => true)
                   osc_settings OSC.initial_world))
           osc_body "osc_event_0" (JStr "/fader1") false empty_fs
           eq_refl Hname eq_refl eq_refl).
Defined.

Lemma start_midi_device_binds_saved_port_witness :
  MIDI.midi_in (MIDI.start_midi_device (fun _ => true) (fun _ => true)
                  ["Keystation"; "Launchpad"] unbound_device)
  = Some (MIDI.MidiHandle 1 true).
Proof.
  apply (proj1 (proj2 (start_midi_device_binds_saved_port (fun _ => true) (fun _ => true)
                         ["Keystation"; "Launchpad"] unbound_device eq_refl eq_refl))
           (MIDI.MidiHandle 1 true)).
  reflexivity.
Defined.

Lemma script_load_no_stub_witness :
  let r := MIDI.script_load (fun _ => true) (fun _ => true) (fun _ => true) (fun _ => true)
             found_then_missing (Ret ["Launchpad"]) (MIDI.initial ∅) in
  snd r = Ret tt ∧
  length (MIDI.midi_devices (fst r)) = 1%nat ∧
  saved_port (MIDI.script_settings (fst r)) 1 = "---".
Proof.
  destruct (script_load_no_stub (fun _ => true) (fun _ => true) (fun _ => true)
              (fun _ => true) found_then_missing ["Launchpad"] (MIDI.initial ∅) eq_refl)
    as (_ & _ & Hmarked & Hdone).
  assert (Hfirst : found_first
            (map (port_found found_then_missing ["Launchpad"])
               (seq 0 (Z.to_nat (Host.obs_data_get_int found_then_missing
                                   "number_of_devices")))) = true)
    by (vm_compute; reflexivity).
  destruct (Hdone Hfirst) as (Hret & _ & Htable).
  split; [exact Hret|]. split.
  - rewrite Htable. vm_compute. reflexivity.
  - apply (Hmarked Hret 1%nat); [vm_compute; lia | vm_compute; reflexivity].
Defined.

Lemma script_load_completes_iff_witness :
  snd (MIDI.script_load (fun _ => true) (fun _ => true) (fun _ => true) (fun _ => true) missing_then_found
         (Ret ["Launchpad"]) (MIDI.initial ∅)) = Raise IndexError.
Proof.
  apply (proj2 (script_load_completes_iff (fun _ => true) (fun _ => true)
                  (fun _ => true) (fun _ => true) missing_then_found ["Launchpad"] (MIDI.initial ∅) eq_refl)).
  vm_compute. reflexivity.
Defined.

Lemma send_after_load_reaches_port_witness :
  MIDI.send_midi_api (fun _ _ => true)
    (MIDI.midi_devices
       (fst (MIDI.script_load (fun _ => true) (fun _ => true) (fun _ => true) (fun _ => true)
               midi_settings (Ret ["Keystation"; "Launchpad"]) (MIDI.initial ∅))))
    (JStr "midiDevice_0") (JStr "90 3C 40")
  = (true, [(MIDI.MidiHandle 1 true, [144; 60; 64]%Z)]).
Proof.
  assert (Hname : saved_port midi_settings 0 ≠ "") by (vm_compute; discriminate).
  assert (Htext : hex_text [9 * 16 + 0; 3 * 16 + 12; 4 * 16 + 0]%Z "90 3C 40").
  { repeat first [ apply hex_text_end | apply hex_text_space
                 | eapply hex_text_pair; [reflexivity | reflexivity |] ]. }
  refine (proj2 (send_after_load_reaches_port (fun _ => true) (fun _ => true)
                   (fun _ => true) (fun _ => true)
                   (fun _ _ => true) midi_settings ["Keystation"; "Launchpad"]
                   (MIDI.initial ∅) 0 1 _ "90 3C 40"
                   eq_refl _ _ _ Hname _ eq_refl eq_refl Htext)).
  - vm_compute. lia.
  - intros j Hj. assert (j = 0%nat) as -> by (vm_compute in Hj; lia). vm_compute. reflexivity.
  - intros j Hj. assert (j = 0%nat) as -> by (vm_compute in Hj; lia). vm_compute. reflexivity.
  - vm_compute. reflexivity.
Defined.

Lemma midi_input_callback_delivery_witness :
  let r := MIDI.CallbackResult (MIDI.Decoded 144 60 0) [] true in
  MIDI.cb_events r = [] ∧ MIDI.cb_dropped r = true.
Proof.
  exact (midi_input_callback_delivery (fun _ => true) (fun _ => "") (fun _ => false)
           bound_device [144; 60]%Z
           (MIDI.CallbackResult (MIDI.Decoded 144 60 0) [] true) eq_refl).
Defined.

Lemma update_wss_details_not_an_object_witness :
  let r := HTTP.update_wss_details (fun _ => None) (fun _ => None) (fun _ => true)
             (fun _ => HTTP.Loaded key_list) "wss.json" HTTP.WSS_DETAILS_initial in
  fst (fst r) = false ∧ snd r = HTTP.WSS_DETAILS_initial.
Proof.
  exact (update_wss_details_not_an_object (fun _ => None) (fun _ => None) (fun _ => true)
           (fun _ => HTTP.Loaded key_list) "wss.json" HTTP.WSS_DETAILS_initial key_list
           eq_refl eq_refl).
Defined.

Lemma obswss_after_load_witness :
  HTTP.out_response
    (HTTP.do_GET root no_static "/api/obswss" ∅
       (snd (HTTP.update_wss_details (fun _ => None) (fun _ => None) (fun _ => true)
               (fun _ => HTTP.Loaded credentials) "wss.json" HTTP.WSS_DETAILS_initial))
       empty_fs)
  = HTTP.Response 200
      (HTTP.DetailsBody {| HTTP.IP := "localhost"; HTTP.PORT := 4460; HTTP.PW := JStr "secret" |}).
Proof.
  assert (Hpath : "wss.json" ≠ "") by discriminate.
  exact (proj2 (obswss_after_load (fun _ => None) (fun _ => None) (fun _ => true)
                  (fun _ => HTTP.Loaded credentials) no_static root "wss.json"
                  HTTP.WSS_DETAILS_initial
                  [("server_password", JStr "secret"); ("server_port", JInt 4460)]
                  (JStr "secret") (JInt 4460) 4460 ∅ empty_fs
                  Hpath eq_refl eq_refl eq_refl eq_refl eq_refl)).
Defined.

Lemma http_listener_invariant_witness :
  let '(s, evs) :=
    HTTP.run_calls (fun _ => None) (fun _ => None) (fun _ => false)
      (fun _ => HTTP.LoadInvalid) (fun _ => "") system_port 0
      [HTTP.ScriptLoad ∅; HTTP.PortChanged http_settings] HTTP.server_initial in
  (peak [] evs ≤ 1)%nat ∧ open_after [] evs = listening s ∧
  HTTP.HTTP_SERVER_INSTANCE s = Some 9090%Z.
Proof.
  assert (Hbind : ∀ k, binds_requested (system_port k)).
  { intros k port bound [= <-] Hport. by apply Z.eqb_neq in Hport as ->. }
  pose proof (http_listener_invariant (fun _ => None) (fun _ => None) (fun _ => false)
                (fun _ => HTTP.LoadInvalid) (fun _ => "") system_port
                [HTTP.ScriptLoad ∅; HTTP.PortChanged http_settings] Hbind) as Hrun.
  destruct (HTTP.run_calls _ _ _ _ _ _ _ _ _) as [s evs] eqn:Hcalls.
  destruct Hrun as (Hpeak & Hopen & _).
  split; [exact Hpeak|]. split; [exact Hopen|].
  vm_compute in Hcalls. injection Hcalls as <- _. reflexivity.
Defined.

(** ** OSC input: what reaches the browser source *)

Section OSCDelivery.
Import Host OSC.
Variable arg : Type.
Variable dumps_event : string → list arg → option string.
Variable source_exists : string → bool.

(** X26: when some filter begins the inbound address, the message is
    handed to the first client of the table with such a filter, and what
    the callback gives is decided by that client alone: no event when its
    browser source does not exist; when it exists and the address and
    arguments encode, exactly one event, to that source, under the
    client's event name, with the encoded text; and the callback, which
    has no handler of its own, raises, with [TypeError], exactly when the
    source exists and the arguments cannot be encoded. *)
Theorem on_osc_received_outcome (before after : list OSCClient) (client : OSCClient)
    (address : string) (args : list arg) :
  Forall (fun c => ¬ begins_with address (osc_address c)) before →
  begins_with address (osc_address client) →
  let result := _on_osc_received arg dumps_event source_exists
                  (before ++ client :: after)%list address args in
  fst result = [client] ∧
  (source_exists (browser_source client) = false → snd result = Ret []) ∧
  (source_exists (browser_source client) = true →
     ∀ text, dumps_event address args = Some text →
       snd result = Ret [JsEvent (browser_source client) (event_name client) text]) ∧
  (source_exists (browser_source client) = true → dumps_event address args = None →
     snd result = Raise TypeError) ∧
  ((∃ e, snd result = Raise e) ↔
   source_exists (browser_source client) = true ∧ dumps_event address args = None).
Proof.
  intros Hbefore Hclient result.
  assert (Hresult : result =
            ([client], _dispatch_to_obs arg dumps_event source_exists client address args)).
  { subst result. induction Hbefore as [|c before Hc _ IH]; simpl.
    - apply matches_begins in Hclient. by rewrite Hclient.
    - apply matches_not_begins in Hc. by rewrite Hc. }
  rewrite Hresult. unfold _dispatch_to_obs. simpl.
  split; [reflexivity|].
  destruct (source_exists (browser_source client)).
  - destruct (dumps_event address args) as [text|].
    + split; [discriminate|]. split; [by intros _ text' [= <-]|]. split; [discriminate|].
      split; [intros [e He]; discriminate | intros [_ Hnone]; discriminate].
    + split; [discriminate|]. split; [intros _ text' Htext; discriminate|].
      split; [reflexivity|]. split; [done | intros _; by eexists].
  - split; [reflexivity|]. split; [discriminate|]. split; [discriminate|].
    split; [intros [e He]; discriminate | intros [Hsrc _]; discriminate].
Qed.
End OSCDelivery.

Lemma on_osc_received_outcome_witness :
  OSC._on_osc_received json (fun _ _ => Some "{}") (fun _ => true)
    [Examples.fader_client] "/fader1" [JFloat 0.5]
  = ([Examples.fader_client], Ret [Host.JsEvent "Overlay" "osc_event_0" "{}"]).
Proof.
  assert (Hbegins : begins_with "/fader1" (OSC.osc_address Examples.fader_client))
    by (by exists "1").
  destruct (on_osc_received_outcome json (fun _ _ => Some "{}") (fun _ => true)
              [] [] Examples.fader_client "/fader1" [JFloat 0.5]
              (Forall_nil_2 _) Hbegins) as (Hto & _ & Hevent & _).
  apply injective_projections; [exact Hto | exact (Hevent eq_refl _ eq_refl)].
Defined.
